(** * Verification of the vehicle recommendation scorer

    Shallow embedding of [calculateAdvancedRecommendations] and of the
    [POST /recommend] handler of [src/server/routes/recommendRoutes.js].

    JavaScript numbers are binary64 values: [NaN], the two infinities and
    finite dyadic values [m * 2^e], rounded to nearest, ties to even, after
    every operation that can be inexact.  The sign of zero is not tracked
    (it changes neither comparisons nor the printed form).  Strings are
    ASCII strings. *)

From Stdlib Require Import ZArith Bool List String Ascii Lia Permutation Sorted.
Import ListNotations.
Local Open Scope string_scope.
Local Open Scope Z_scope.

(** ** JavaScript numbers *)

Inductive num : Type :=
| NaN
| Inf (neg : bool)
| Fin (m : Z) (e : Z).   (** the value [m * 2^e] *)

Definition of_Z (z : Z) : num := Fin z 0.

(** [n / d] rounded to the nearest integer, ties to even ([n >= 0], [d > 0]). *)
Definition round_half_even (n d : Z) : Z :=
  let q := n / d in
  let r := n mod d in
  if 2 * r <? d then q
  else if d <? 2 * r then q + 1
  else if Z.even q then q else q + 1.

(** The binary64 value nearest to [n * 2^e]: 53-bit significand, least
    exponent -1074 (subnormals), overflow to an infinity. *)
Definition round_int (n e : Z) : num :=
  let a := Z.abs n in
  let s := Z.max (Z.log2 a - 52) (-1074 - e) in
  let '(m, e') :=
    if s <=? 0 then (n, e) else (Z.sgn n * round_half_even a (2 ^ s), e + s) in
  if m =? 0 then Fin 0 0
  else if 1024 <=? Z.log2 (Z.abs m) + e' then Inf (m <? 0)
  else Fin m e'.

(** The binary64 value nearest to [a / b] ([a >= 0], [b > 0]): the quotient
    is computed to at least 54 bits and a sticky bit records a nonzero
    remainder. *)
Definition round_ratio (a b : Z) : num :=
  if a =? 0 then Fin 0 0 else
  let s := 54 + Z.log2 b - Z.log2 a in
  let n := a * 2 ^ Z.max s 0 in
  let d := b * 2 ^ Z.max (- s) 0 in
  round_int (2 * (n / d) + (if n mod d =? 0 then 0 else 1)) (- s - 1).

Definition fneg (x : num) : num :=
  match x with
  | NaN => NaN
  | Inf b => Inf (negb b)
  | Fin m e => Fin (- m) e
  end.

(** A decimal [mant * 10^k], with its sign. *)
Definition of_decimal (neg : bool) (mant k : Z) : num :=
  let r := if 0 <=? k then round_int (mant * 10 ^ k) 0
           else round_ratio mant (10 ^ (- k)) in
  if neg then fneg r else r.

(** [x * y] *)
Definition fmul (x y : num) : num :=
  match x, y with
  | NaN, _ | _, NaN => NaN
  | Inf a, Inf b => Inf (xorb a b)
  | Inf a, Fin m _ | Fin m _, Inf a =>
      if m =? 0 then NaN else Inf (xorb a (m <? 0))
  | Fin m1 e1, Fin m2 e2 => round_int (m1 * m2) (e1 + e2)
  end.

(** Numeric comparison; [None] when an operand is [NaN]. *)
Definition num_cmp (x y : num) : option comparison :=
  match x, y with
  | NaN, _ | _, NaN => None
  | Inf a, Inf b => Some (if Bool.eqb a b then Eq else if a then Lt else Gt)
  | Inf a, Fin _ _ => Some (if a then Lt else Gt)
  | Fin _ _, Inf b => Some (if b then Gt else Lt)
  | Fin m1 e1, Fin m2 e2 =>
      let e := Z.min e1 e2 in
      Some (Z.compare (m1 * 2 ^ (e1 - e)) (m2 * 2 ^ (e2 - e)))
  end.

(** [x < y] *)
Definition num_lt (x y : num) : bool :=
  match num_cmp x y with Some Lt => true | _ => false end.

(** [x <= y] *)
Definition num_le (x y : num) : bool :=
  match num_cmp x y with Some Lt | Some Eq => true | _ => false end.

(** [Math.max(...xs)] *)
Definition math_max (xs : list num) : num :=
  fold_left (fun acc x =>
    match acc, x with
    | NaN, _ | _, NaN => NaN
    | _, _ => if num_lt acc x then x else acc
    end) xs (Inf true).

(** The numeric literals of the scorer, as the engine reads them. *)
Definition lit_0_8 : num := of_decimal false 8 (-1).
Definition lit_1_15 : num := of_decimal false 115 (-2).
Definition lit_2_5 : num := of_decimal false 25 (-1).
Definition lit_1_5 : num := of_decimal false 15 (-1).
Definition lit_3_5 : num := of_decimal false 35 (-1).
Definition lit_4_5 : num := of_decimal false 45 (-1).

(** ** String to number conversions *)

(** ASCII white space of [String.prototype.trim] and friends. *)
Definition is_ws (c : ascii) : bool :=
  match nat_of_ascii c with
  | 9 | 10 | 11 | 12 | 13 | 32 => true
  | _ => false
  end%nat.

Fixpoint skip_ws (l : list ascii) : list ascii :=
  match l with
  | c :: r => if is_ws c then skip_ws r else l
  | [] => []
  end.

Definition trim_list (l : list ascii) : list ascii :=
  rev (skip_ws (rev (skip_ws l))).

Definition digit_val (radix : Z) (c : ascii) : option Z :=
  let n := Z.of_nat (nat_of_ascii c) in
  let v := if (48 <=? n) && (n <=? 57) then n - 48
           else if (97 <=? n) && (n <=? 122) then n - 87
           else if (65 <=? n) && (n <=? 90) then n - 55
           else 36 in
  if v <? radix then Some v else None.

(** The longest run of digits: its value appended to [acc], its length,
    and what follows it. *)
Fixpoint take_digits (radix : Z) (l : list ascii) (acc : Z) (cnt : nat)
  : Z * nat * list ascii :=
  match l with
  | c :: r =>
      match digit_val radix c with
      | Some v => take_digits radix r (acc * radix + v) (S cnt)
      | None => (acc, cnt, l)
      end
  | [] => (acc, cnt, [])
  end.

Definition take_sign (l : list ascii) : bool * list ascii :=
  match l with
  | "-"%char :: r => (true, r)
  | "+"%char :: r => (false, r)
  | _ => (false, l)
  end.

Fixpoint strip_prefix (p l : list ascii) : option (list ascii) :=
  match p, l with
  | [], _ => Some l
  | c :: p', d :: l' => if Ascii.eqb c d then strip_prefix p' l' else None
  | _ :: _, [] => None
  end.

Definition infinity_chars : list ascii := list_ascii_of_string "Infinity".

(** [parseInt(s)] with no radix argument. *)
Definition parseInt (s : string) : num :=
  let '(neg, l) := take_sign (skip_ws (list_ascii_of_string s)) in
  let '(radix, l) :=
    match l with
    | "0"%char :: c :: r =>
        if Ascii.eqb c "x"%char || Ascii.eqb c "X"%char then (16, r) else (10, l)
    | _ => (10, l)
    end in
  let '(v, cnt, _) := take_digits radix l 0 0 in
  if (cnt =? 0)%nat then NaN else round_int (if neg then - v else v) 0.

(** An optional exponent part [e+12]; left unread when no digit follows. *)
Definition scan_exponent (l : list ascii) : Z * list ascii :=
  match l with
  | c :: r =>
      if Ascii.eqb c "e"%char || Ascii.eqb c "E"%char then
        let '(neg, r') := take_sign r in
        let '(v, cnt, r'') := take_digits 10 r' 0 0 in
        if (cnt =? 0)%nat then (0, l) else (if neg then - v else v, r'')
      else (0, l)
  | [] => (0, l)
  end.

(** The longest unsigned decimal literal at the head of [l]: its digits as
    an integer [m], the power of ten [k] (value [m * 10^k]), and the rest. *)
Definition scan_decimal (l : list ascii) : option (Z * Z * list ascii) :=
  let '(ip, ic, l1) := take_digits 10 l 0 0 in
  let '(m, fc, l2) :=
    match l1 with
    | "."%char :: r => take_digits 10 r ip 0
    | _ => (ip, 0%nat, l1)
    end in
  if (ic + fc =? 0)%nat then None else
  let '(x, l3) := scan_exponent l2 in
  Some (m, x - Z.of_nat fc, l3).

(** [parseFloat(s)] *)
Definition parseFloat (s : string) : num :=
  let '(neg, l) := take_sign (skip_ws (list_ascii_of_string s)) in
  match strip_prefix infinity_chars l with
  | Some _ => Inf neg
  | None =>
      match scan_decimal l with
      | Some (m, k, _) => of_decimal neg m k
      | None => NaN
      end
  end.

Definition radix_prefix (c : ascii) : option Z :=
  if Ascii.eqb c "x"%char || Ascii.eqb c "X"%char then Some 16
  else if Ascii.eqb c "o"%char || Ascii.eqb c "O"%char then Some 8
  else if Ascii.eqb c "b"%char || Ascii.eqb c "B"%char then Some 2
  else None.

(** [Number(s)], the StringToNumber conversion. *)
Definition string_to_number (s : string) : num :=
  let l := trim_list (list_ascii_of_string s) in
  match l with
  | [] => Fin 0 0
  | _ =>
      let prefixed :=
        match l with
        | "0"%char :: c :: r =>
            match radix_prefix c with Some rd => Some (rd, r) | None => None end
        | _ => None
        end in
      match prefixed with
      | Some (rd, r) =>
          let '(v, cnt, rest) := take_digits rd r 0 0 in
          match cnt, rest with
          | S _, [] => round_int v 0
          | _, _ => NaN
          end
      | None =>
          let '(neg, l') := take_sign l in
          match strip_prefix infinity_chars l' with
          | Some [] => Inf neg
          | Some _ => NaN
          | None =>
              match scan_decimal l' with
              | Some (m, k, []) => of_decimal neg m k
              | _ => NaN
              end
          end
      end
  end.

(** ** JSON values of the request *)

#[local] Set Warnings "-register-all".

(** A value produced by [express.json()]; arrays are not modelled.  An
    object lists its own properties, with distinct keys. *)
Inductive jsval : Type :=
| JUndef
| JNull
| JBool (b : bool)
| JNum (x : num)
| JStr (s : string)
| JObj (props : list (string * jsval)).

Fixpoint assoc (k : string) (ps : list (string * jsval)) : jsval :=
  match ps with
  | [] => JUndef
  | (k', v) :: r => if String.eqb k k' then v else assoc k r
  end.

(** [v.k]; [None] is the TypeError thrown on [undefined] and [null]. *)
Definition get_prop (v : jsval) (k : string) : option jsval :=
  match v with
  | JUndef | JNull => None
  | JObj ps => Some (assoc k ps)
  | _ => Some JUndef
  end.

(** ToBoolean *)
Definition truthy (v : jsval) : bool :=
  match v with
  | JUndef | JNull => false
  | JBool b => b
  | JNum NaN => false
  | JNum (Inf _) => true
  | JNum (Fin m _) => negb (m =? 0)
  | JStr s => negb (String.eqb s "")
  | JObj _ => true
  end.

(** An object of a parsed body with an own [toString] property: its value,
    a JSON value, is no function. *)
Definition own_toString (ps : list (string * jsval)) : bool :=
  existsb (fun kv => String.eqb (fst kv) "toString") ps.

(** ToNumber; [None] is the TypeError of ToPrimitive.  An object converts
    through [valueOf], which returns the object itself, then [toString]:
    the inherited one gives ["[object Object]"], hence [NaN]; an own
    [toString] property is not callable, and the conversion throws. *)
Definition to_number (v : jsval) : option num :=
  match v with
  | JUndef => Some NaN
  | JNull => Some (Fin 0 0)
  | JBool b => Some (if b then Fin 1 0 else Fin 0 0)
  | JNum x => Some x
  | JStr s => Some (string_to_number s)
  | JObj ps => if own_toString ps then None else Some NaN
  end.

Definition bind {A B : Type} (m : option A) (k : A -> option B) : option B :=
  match m with Some a => k a | None => None end.

Notation "'let*' x ':=' m 'in' k" := (bind m (fun x => k))
  (at level 200, x name, m at level 100, k at level 200).

(** [v === s] for a string literal [s]. *)
Definition js_eq_str (v : jsval) (s : string) : bool :=
  match v with JStr t => String.eqb t s | _ => false end.

(** ** Catalog records *)

(** A row of the catalog CSV: every column as the trimmed cell, or
    [None] ([undefined]) when the row is shorter than the header. *)
Record car : Type := mkCar {
  Model : option string;
  Variant : option string;
  Base_Price_USD : option string;
  Range_mi : option string;
  Top_Speed_mph : option string;
  Zero_to_60_mph_sec : option string;
  Energy_Consumption_Wh_mi : option string;
  Seating_Capacity : option string;
  Body_Type : option string;
  Towing_Capacity_lbs : option string;
  Full_Self_Driving_Available : option string;
  Drive_Type : option string;
  Warranty_Years_Miles : option string }.

(** ToString of a cell: [undefined] reads as ["undefined"]. *)
Definition field_string (v : option string) : string :=
  match v with Some s => s | None => "undefined" end.

(** [car[k] === v] *)
Definition field_eq (f : option string) (v : jsval) : bool :=
  match f, v with
  | None, JUndef => true
  | Some s, JStr t => String.eqb s t
  | _, _ => false
  end.

(** A template literal, piece by piece: the conversion of numbers to text
    is left to the engine. *)
Inductive piece : Type :=
| Lit (s : string)            (** literal text *)
| NumStr (x : num)            (** [`${x}`] for a number *)
| LocaleStr (x : num)         (** [x.toLocaleString()] *)
| FieldStr (f : option string). (** [`${car[k]}`] *)

Definition text : Type := list piece.

(** ** The scoring rules *)

(** 1. Budget: delta, reasons, details; [None] when [price <= maxBudget]
    throws. *)
Definition budget_rule (price : num) (maxBudget : jsval)
  : option (Z * list text * list text) :=
  let* mb := to_number maxBudget in
  Some (if num_le price mb then
          (30 + (if num_lt price (fmul mb lit_0_8) then 5 else 0),
           [[Lit "Fits budget: $"; LocaleStr price]], [])
        else if num_le price (fmul mb lit_1_15) then
          (15, [], [[Lit "Slightly over budget ($"; LocaleStr price; Lit ")"]])
        else (-30, [], [])).

(** 2. Range and commute; [None] when [dailyNeeded * 2.5] throws. *)
Definition range_rule (range : num) (dailyNeeded : jsval) : option (Z * list text) :=
  let* dn := to_number dailyNeeded in
  Some (if num_le (fmul dn lit_2_5) range then
          (25, [[Lit "Range ("; NumStr range; Lit "mi) covers daily drive"]])
        else if num_le (fmul dn lit_1_5) range then (15, [])
        else (-10, [])).

(** 3. Performance preference; the energy cell is read on the
    [Efficiency] branch only. *)
Definition perf_rule (accel : num) (priority : jsval) (energy : option string)
  : Z * list text :=
  if js_eq_str priority "Performance" then
    if num_lt accel lit_3_5 then
      (20, [[Lit "Supercar acceleration: "; NumStr accel; Lit "s"]])
    else if num_lt accel lit_4_5 then (10, [])
    else (0, [])
  else if js_eq_str priority "Efficiency" then
    let efficiency := parseInt (field_string energy) in
    if num_lt efficiency (of_Z 260) then
      (20, [[Lit "High efficiency: "; NumStr efficiency; Lit " Wh/mi"]])
    else (0, [])
  else (0, []).

(** [car['Seating Capacity'] || '5'] *)
Definition seats_string (c : car) : string :=
  match Seating_Capacity c with
  | Some s => if String.eqb s "" then "5" else s
  | None => "5"
  end.

(** [s.split('/')] on a list of characters. *)
Fixpoint split_slash (l : list ascii) (cur : list ascii) : list (list ascii) :=
  match l with
  | [] => [rev cur]
  | c :: r =>
      if Ascii.eqb c "/"%char then rev cur :: split_slash r []
      else split_slash r (c :: cur)
  end.

(** [maxSeats]: the largest of the [/]-separated alternatives. *)
Definition max_seats (c : car) : num :=
  let seatsStr := seats_string c in
  let l := list_ascii_of_string seatsStr in
  if existsb (fun ch => Ascii.eqb ch "/"%char) l then
    math_max (map (fun p => string_to_number (string_of_list_ascii p))
                  (split_slash l []))
  else parseInt seatsStr.

(** 4. Utility and passengers; [None] when [maxSeats >= passengers]
    throws (the second conversion, in [passengers > 5], then gives the same
    number). *)
Definition seat_rule (maxSeats : num) (passengers : jsval) : option (Z * list text) :=
  let* p := to_number passengers in
  Some (if num_le p maxSeats then
          (15, if num_lt (of_Z 5) maxSeats && num_lt (of_Z 5) p
               then [[Lit "Seats "; NumStr maxSeats; Lit " people"]] else [])
        else (-50, [])).

(** 5. Style match. *)
Definition style_rule (style : jsval) (body : option string) : Z * list text :=
  if negb (js_eq_str style "Any") && field_eq body style then
    (10, [[Lit "Matches "; FieldStr body; Lit " style"]])
  else (0, []).

(** 6. Towing. *)
Definition towing_rule (towing : jsval) (capacity : option string) : Z * list text :=
  if truthy towing && negb (field_eq capacity (JStr "NA")) then
    (15, [[Lit "Towing: "; FieldStr capacity; Lit " lbs"]])
  else (0, []).

(** 7. Full Self Driving. *)
Definition fsd_rule (fsd : jsval) (available : option string) : Z * list text :=
  if truthy fsd && field_eq available (JStr "Yes") then
    (10, [[Lit "Full Self Driving Hardware Ready"]])
  else (0, []).

(** The body of the [TESLA_SPECS.map] callback up to the output record:
    the running total, all reasons pushed and the details, in source order.
    [None] when a property read or a conversion to a number throws. *)
Definition rules (c : car) (preferences : jsval) : option (Z * list text * list text) :=
  let price := parseInt (field_string (Base_Price_USD c)) in
  let* priceRange := get_prop preferences "priceRange" in
  let* maxBudget := get_prop priceRange "max" in
  let* b1 := budget_rule price maxBudget in
  let '(d1, r1, det) := b1 in
  let range := parseInt (field_string (Range_mi c)) in
  let* dailyNeeded := get_prop preferences "dailyDistance" in
  let* b2 := range_rule range dailyNeeded in
  let '(d2, r2) := b2 in
  let accel := parseFloat (field_string (Zero_to_60_mph_sec c)) in
  let* priority := get_prop preferences "priority" in
  let '(d3, r3) := perf_rule accel priority (Energy_Consumption_Wh_mi c) in
  let* passengers := get_prop preferences "passengers" in
  let* b4 := seat_rule (max_seats c) passengers in
  let '(d4, r4) := b4 in
  let* style := get_prop preferences "style" in
  let '(d5, r5) := style_rule style (Body_Type c) in
  let* towing := get_prop preferences "towing" in
  let '(d6, r6) := towing_rule towing (Towing_Capacity_lbs c) in
  let* fsd := get_prop preferences "fsd" in
  let '(d7, r7) := fsd_rule fsd (Full_Self_Driving_Available c) in
  Some (0 + d1 + d2 + d3 + d4 + d5 + d6 + d7,
        (r1 ++ r2 ++ r3 ++ r4 ++ r5 ++ r6 ++ r7)%list, det).

(** ** Output records and ranking *)

Record candidate : Type := mkCandidate {
  id : string;
  name : text;
  basePrice : num;
  range : text;
  acceleration : text;
  topSpeed : text;
  image : option string;
  score : Z;
  reasons : list text;
  details : list text;
  specs_drive : option string;
  specs_seats : option string;
  specs_warranty : option string }.

(** [VEHICLE_ASSETS[key]]: id and image; any other key, inherited
    properties of [Object.prototype] included, yields no [id]. *)
Definition vehicle_asset (key : string) : option (string * string) :=
  if String.eqb key "Model 3" then Some ("model3", "https://digitalassets.tesla.com/tesla-contents/image/upload/f_auto,q_auto/Homepage-Model-3-Desktop-LHD.png")
  else if String.eqb key "Model Y" then Some ("modelY", "https://digitalassets.tesla.com/tesla-contents/image/upload/f_auto,q_auto/Homepage-Model-Y-Desktop-Global.png")
  else if String.eqb key "Model S" then Some ("modelS", "https://digitalassets.tesla.com/tesla-contents/image/upload/f_auto,q_auto/Homepage-Model-S-Desktop-LHD.png")
  else if String.eqb key "Model X" then Some ("modelX", "https://digitalassets.tesla.com/tesla-contents/image/upload/f_auto,q_auto/Homepage-Model-X-Desktop-LHD.png")
  else if String.eqb key "Cybertruck" then Some ("cybertruck", "https://digitalassets.tesla.com/tesla-contents/image/upload/f_auto,q_auto/Homepage-Cybertruck-Desktop.png")
  else None.

(** The [TESLA_SPECS.map] callback: one catalog record scored and mapped to
    the frontend format, [score] clamped by [Math.max(0, score)] and the
    reasons cut to the first three. *)
Definition score_car (c : car) (preferences : jsval) : option candidate :=
  match rules c preferences with
  | None => None
  | Some (total, rs, det) =>
      let price := parseInt (field_string (Base_Price_USD c)) in
      let range := parseInt (field_string (Range_mi c)) in
      let accel := parseFloat (field_string (Zero_to_60_mph_sec c)) in
      let asset := vehicle_asset (field_string (Model c)) in
      Some {| id := match asset with Some (i, _) => i | None => "unknown" end;
              name := [FieldStr (Model c); Lit " "; FieldStr (Variant c)];
              basePrice := price;
              range := [NumStr range; Lit " mi"];
              acceleration := [NumStr accel; Lit "s"];
              topSpeed := [FieldStr (Top_Speed_mph c); Lit " mph"];
              image := match asset with Some (_, im) => Some im | None => None end;
              score := Z.max 0 total;
              reasons := firstn 3 rs;
              details := det;
              specs_drive := Drive_Type c;
              specs_seats := Seating_Capacity c;
              specs_warranty := Warranty_Years_Miles c |}
  end.

(** [TESLA_SPECS.map(...)]: the first throw aborts the whole map. *)
Fixpoint map_scores (catalog : list car) (preferences : jsval)
  : option (list candidate) :=
  match catalog with
  | [] => Some []
  | c :: r =>
      let* o := score_car c preferences in
      let* os := map_scores r preferences in
      Some (o :: os)
  end.

(** The comparator [(a, b) => b.score - a.score]. *)
Definition by_score (a b : candidate) : Z := score b - score a.

Fixpoint insert_sorted (x : candidate) (l : list candidate) : list candidate :=
  match l with
  | [] => [x]
  | y :: r => if by_score x y <=? 0 then x :: y :: r else y :: insert_sorted x r
  end.

(** [scores.sort(by_score)].  [Array.prototype.sort] is stable, and for a
    comparator that is a total preorder, as [by_score] is, a stable sort has
    one possible result: the stable insertion sort below computes it. *)
Fixpoint sort_scores (l : list candidate) : list candidate :=
  match l with
  | [] => []
  | x :: r => insert_sorted x (sort_scores r)
  end.

(** [calculateAdvancedRecommendations(preferences)] over the catalog
    [TESLA_SPECS] it reads; [None] when it throws. *)
Definition calculateAdvancedRecommendations (catalog : list car)
  (preferences : jsval) : option (list candidate) :=
  let* scores := map_scores catalog preferences in
  Some (firstn 3 (sort_scores scores)).

(** ** The [POST /recommend] handler *)

Inductive response : Type :=
| Status400 (message : string)
| Status500 (message : string)
| Status200 (recommendations : list candidate).

(** [session_user] is [req.session.userId] when a user is logged in;
    [save_ok] tells whether [db.saveRecommendation] returns normally.
    [trackAnalytics] catches its own errors and does not change the
    response. *)
Definition recommend_route (catalog : list car) (body : jsval)
  (session_user : option Z) (save_ok : bool) : response :=
  match get_prop body "preferences" with
  | None => Status500 "Failed to generate recommendations"
  | Some preferences =>
      if negb (truthy preferences) then Status400 "Preferences required" else
      match calculateAdvancedRecommendations catalog preferences with
      | None => Status500 "Failed to generate recommendations"
      | Some recommendations =>
          match session_user with
          | Some _ =>
              if save_ok then Status200 recommendations
              else Status500 "Failed to generate recommendations"
          | None => Status200 recommendations
          end
      end
  end.

(** ** Sample data *)

Definition model3_standard : car := {|
  Model := Some "Model 3"; Variant := Some "Standard";
  Base_Price_USD := Some "38990"; Range_mi := Some "272";
  Top_Speed_mph := Some "125"; Zero_to_60_mph_sec := Some "5.8";
  Energy_Consumption_Wh_mi := Some "250"; Seating_Capacity := Some "5";
  Body_Type := Some "Sedan"; Towing_Capacity_lbs := Some "NA";
  Full_Self_Driving_Available := Some "No"; Drive_Type := Some "RWD";
  Warranty_Years_Miles := Some "4/50000" |}.

Definition balanced_prefs (mx daily pass : Z) : jsval :=
  JObj [("priceRange", JObj [("min", JNum (of_Z 30000)); ("max", JNum (of_Z mx))]);
        ("dailyDistance", JNum (of_Z daily));
        ("passengers", JNum (of_Z pass));
        ("style", JStr "Any");
        ("priority", JStr "Balanced")].

(** A catalog record with another [Seating Capacity] cell. *)
Definition with_seating (c : car) (s : option string) : car := {|
  Model := Model c; Variant := Variant c;
  Base_Price_USD := Base_Price_USD c; Range_mi := Range_mi c;
  Top_Speed_mph := Top_Speed_mph c; Zero_to_60_mph_sec := Zero_to_60_mph_sec c;
  Energy_Consumption_Wh_mi := Energy_Consumption_Wh_mi c; Seating_Capacity := s;
  Body_Type := Body_Type c; Towing_Capacity_lbs := Towing_Capacity_lbs c;
  Full_Self_Driving_Available := Full_Self_Driving_Available c;
  Drive_Type := Drive_Type c; Warranty_Years_Miles := Warranty_Years_Miles c |}.

(** [maxSeats >= preferences.passengers] *)
Definition seat_ok (c : car) (preferences : jsval) : bool :=
  match get_prop preferences "passengers" with
  | Some p => match to_number p with Some x => num_le x (max_seats c) | None => false end
  | None => false
  end.



(** Preferences carrying a [cityHighwayRatio]. *)
Definition prefs_with_ratio (ratio : Z) : jsval :=
  JObj [("priceRange", JObj [("min", JNum (of_Z 30000)); ("max", JNum (of_Z 40000))]);
        ("dailyDistance", JNum (of_Z 30));
        ("passengers", JNum (of_Z 5));
        ("style", JStr "Any");
        ("priority", JStr "Balanced");
        ("cityHighwayRatio", JNum (of_Z ratio))].

(** ** Number to string *)

(** The decimal digits of [n >= 0], most significant first. *)
Fixpoint digits_aux (fuel : nat) (n : Z) (acc : list ascii) : list ascii :=
  match fuel with
  | O => acc
  | S f =>
      let acc' := ascii_of_nat (Z.to_nat (48 + n mod 10)) :: acc in
      if n <? 10 then acc' else digits_aux f (n / 10) acc'
  end.

Definition z_digits (n : Z) : list ascii := digits_aux (Z.to_nat (Z.log2 n + 1)) n [].

Definition ndigits (n : Z) : Z := Z.of_nat (List.length (z_digits n)).

(** [a / b < 10^k] *)
Definition lt_pow10 (a b k : Z) : bool :=
  if 0 <=? k then a <? b * 10 ^ k else a * 10 ^ (- k) <? b.

(** The [n] with [10^(n-1) <= a / b < 10^n] ([a, b > 0]). *)
Definition dec_exponent (a b : Z) : Z :=
  let g := ndigits a - ndigits b in
  if lt_pow10 a b g then g else g + 1.

(** The [k]-digit [s] whose value [s * 10^(n-k)] reads back as [x = a / b],
    the nearer one (the even one on a tie) when both neighbours of
    [x * 10^(k-n)] do. *)
Definition shortest_at (a b n k : Z) (x : num) : option Z :=
  let t := k - n in
  let nn := a * 10 ^ Z.max t 0 in
  let dd := b * 10 ^ Z.max (- t) 0 in
  let lo := nn / dd in
  let r := nn mod dd in
  let ok s := match num_cmp (of_decimal false s (n - k)) x with
              | Some Eq => true | _ => false end in
  match ok lo, ok (lo + 1) with
  | true, true =>
      Some (if 2 * r <? dd then lo else if dd <? 2 * r then lo + 1
            else if Z.even lo then lo else lo + 1)
  | true, false => Some lo
  | false, true => Some (lo + 1)
  | false, false => None
  end.

(** The least [k] with such an [s]: the digits [s], their number [k] and the
    decimal exponent [n]; seventeen digits always suffice. *)
Fixpoint shortest_from (fuel : nat) (a b n k : Z) (x : num) : Z * Z * Z :=
  match fuel with
  | O => (0, k, n)
  | S f =>
      match shortest_at a b n k x with
      | Some s => if s =? 10 ^ k then (10 ^ (k - 1), k, n + 1) else (s, k, n)
      | None => shortest_from f a b n (k + 1) x
      end
  end.

Definition zeros (n : Z) : list ascii := repeat "0"%char (Z.to_nat n).

(** The layout of Number::toString for the digits [ds] of [s], [k] of them,
    and the exponent [n]. *)
Definition format_decimal (ds : list ascii) (k n : Z) : list ascii :=
  if (k <=? n) && (n <=? 21) then ds ++ zeros (n - k)
  else if (0 <? n) && (n <=? 21) then
    firstn (Z.to_nat n) ds ++ "."%char :: skipn (Z.to_nat n) ds
  else if (-6 <? n) && (n <=? 0) then "0"%char :: "."%char :: zeros (- n) ++ ds
  else
    let e := n - 1 in
    let ex := "e"%char :: (if e <? 0 then "-"%char else "+"%char) :: z_digits (Z.abs e) in
    match ds with
    | [d] => d :: ex
    | d :: r => d :: "."%char :: r ++ ex
    | [] => ex
    end.

(** Number::toString(x), radix 10. *)
Definition num_to_string (x : num) : string :=
  match x with
  | NaN => "NaN"
  | Inf neg => if neg then "-Infinity" else "Infinity"
  | Fin m e =>
      if m =? 0 then "0" else
      let a0 := Z.abs m in
      let '(a, b) := if 0 <=? e then (a0 * 2 ^ e, 1) else (a0, 2 ^ (- e)) in
      let '(s, k, n) := shortest_from 17 a b (dec_exponent a b) 1 (Fin a0 e) in
      string_of_list_ascii
        ((if m <? 0 then ["-"%char] else []) ++ format_decimal (z_digits s) k n)
  end.

(** [v.toString()]; [None] is the TypeError on [undefined] and [null], and on
    an object whose own [toString] property, a JSON value, is no function. *)
Definition to_string_call (v : jsval) : option string :=
  match v with
  | JUndef | JNull => None
  | JBool b => Some (if b then "true" else "false")
  | JNum x => Some (num_to_string x)
  | JStr s => Some s
  | JObj ps => if own_toString ps then None else Some "[object Object]"
  end.

(** ** The catalog loader *)

(** [s.split(sep)] on a list of characters. *)
Fixpoint split_on (sep : ascii) (l : list ascii) : list (list ascii) :=
  match l with
  | [] => [[]]
  | c :: r =>
      let parts := split_on sep r in
      if Ascii.eqb c sep then [] :: parts
      else match parts with
           | p :: ps => (c :: p) :: ps
           | [] => [[c]]
           end
  end.

Definition newline : ascii := ascii_of_nat 10.
Definition carriage_return : ascii := ascii_of_nat 13.

(** [s.trim()] *)
Definition js_trim (l : list ascii) : string := string_of_list_ascii (trim_list l).

(** The object [car] built for one line: its properties, the latest
    assignment first, so that a header repeated in the file reads as its
    last column. *)
Definition row_object : Type := list (string * option string).

(** [headers.forEach((header, index) => { car[header] = values[index]?.trim(); })];
    [car['__proto__'] = v] creates no property: the setter inherited from
    [Object.prototype] ignores a string or [undefined]. *)
Fixpoint assign_cells (headers : list string) (values : list (list ascii))
  (car0 : row_object) : row_object :=
  match headers with
  | [] => car0
  | header :: hs =>
      assign_cells hs (tl values)
        (if String.eqb header "__proto__" then car0
         else (header, option_map js_trim (hd_error values)) :: car0)
  end.

(** [car[k]] for a key that [Object.prototype] does not provide; a property
    never assigned or assigned [undefined] reads as [None]. *)
Fixpoint cell (k : string) (car0 : row_object) : option string :=
  match car0 with
  | [] => None
  | (k', v) :: r => if String.eqb k k' then v else cell k r
  end.

(** The [map] callback of the loader on one line. *)
Definition parse_line (headers : list string) (line : list ascii) : row_object :=
  assign_cells headers (split_on ","%char line) [].

(** [!l.trim()] *)
Definition is_blank (l : list ascii) : bool :=
  match trim_list l with [] => true | _ => false end.

(** The [try] block of the loader on the file's text; [lines[0]] always
    exists since a split yields at least one piece. *)
Definition load_rows (csvData : string) : list row_object :=
  let lines := split_on newline (list_ascii_of_string csvData) in
  let headers := map js_trim (split_on ","%char (hd [] lines)) in
  map (parse_line headers) (filter (fun l => negb (is_blank l)) (tl lines)).

(** The loaded object seen through the keys the scorer reads. *)
Definition car_of_row (r : row_object) : car := {|
  Model := cell "Model" r;
  Variant := cell "Variant" r;
  Base_Price_USD := cell "Base Price (USD)" r;
  Range_mi := cell "Range (mi)" r;
  Top_Speed_mph := cell "Top Speed (mph)" r;
  Zero_to_60_mph_sec := cell "0-60 mph (sec)" r;
  Energy_Consumption_Wh_mi := cell "Energy Consumption (Wh/mi)" r;
  Seating_Capacity := cell "Seating Capacity" r;
  Body_Type := cell "Body Type" r;
  Towing_Capacity_lbs := cell "Towing Capacity (lbs)" r;
  Full_Self_Driving_Available := cell "Full Self Driving Available" r;
  Drive_Type := cell "Drive Type" r;
  Warranty_Years_Miles := cell "Warranty Years/Warranty Miles" r |}.

(** [TESLA_SPECS]: [None] is a [readFileSync] that throws, caught with the
    catalog left empty. *)
Definition load_catalog (csvFile : option string) : list car :=
  match csvFile with
  | Some csvData => map car_of_row (load_rows csvData)
  | None => []
  end.

(** ** The JSON database of [src/server/database.js]

    The file holds the JSON text of a [db_data] ([None]: missing or not
    valid JSON); [writeDb] followed by [readDb] gives the data back through
    [JSON.stringify] and [JSON.parse] ([json_data]), objects as new
    objects.  Times ([Date.now()], [new Date().toISOString()]) are
    milliseconds. *)

Record analytics_entry : Type := mkEntry {
  filterType : string;
  filterValue : jsval;
  count : Z;
  lastUpdated : Z }.

Record saved_item : Type := mkItem {
  vehicleId : string;
  vehicleName : text;
  item_score : Z;
  item_reasons : list text;
  estimatedPrice : jsval }.

Record saved_recommendation : Type := mkSaved {
  userId : Z;
  rec_preferences : jsval;
  rec_recommendations : list saved_item;
  rec_id : Z;
  createdAt : Z }.

(** Users and orders are kept as read; the functions below never look into
    them. *)
Record db_data : Type := mkData {
  users : list jsval;
  orders : list jsval;
  recommendations : option (list saved_recommendation);
  analytics : option (list analytics_entry) }.

(** The database file and whether [writeFileSync] succeeds on it. *)
Record store : Type := mkStore {
  file : option db_data;
  writable : bool }.

(** [a === b] for [a] read back from the file and [b] held by the caller:
    an object read from the file is a new object, equal to no other. *)
Definition strict_eq_stored (a b : jsval) : bool :=
  match a, b with
  | JUndef, JUndef | JNull, JNull => true
  | JBool x, JBool y => Bool.eqb x y
  | JNum x, JNum y => match num_cmp x y with Some Eq => true | _ => false end
  | JStr s, JStr t => String.eqb s t
  | _, _ => false
  end.

(** [JSON.stringify] of a number: [null] unless finite. *)
Definition json_number (x : num) : jsval :=
  match x with Fin _ _ => JNum x | _ => JNull end.

(** [JSON.parse(JSON.stringify(v))] for the value of a property: numbers
    that are not finite become [null]; in an object, a property whose value
    is [undefined] is left out.  A property left out of a record reads back
    as [undefined], so [undefined] stays [undefined]. *)
Fixpoint json_value (v : jsval) : jsval :=
  match v with
  | JNum x => json_number x
  | JObj ps =>
      JObj ((fix json_props (ps : list (string * jsval)) : list (string * jsval) :=
               match ps with
               | [] => []
               | (k, JUndef) :: r => json_props r
               | (k, x) :: r => (k, json_value x) :: json_props r
               end) ps)
  | _ => v
  end.

(** The same for an element of an array: [undefined] becomes [null]. *)
Definition json_elem (v : jsval) : jsval :=
  match v with JUndef => JNull | _ => json_value v end.

Definition json_entry (a : analytics_entry) : analytics_entry :=
  mkEntry (filterType a) (json_value (filterValue a)) (count a) (lastUpdated a).

Definition json_item (i : saved_item) : saved_item :=
  mkItem (vehicleId i) (vehicleName i) (item_score i) (item_reasons i)
    (json_value (estimatedPrice i)).

Definition json_saved (r : saved_recommendation) : saved_recommendation :=
  mkSaved (userId r) (json_value (rec_preferences r)) (map json_item (rec_recommendations r))
    (rec_id r) (createdAt r).

(** [JSON.parse(JSON.stringify(data, null, 2))] *)
Definition json_data (d : db_data) : db_data :=
  mkData (map json_elem (users d)) (map json_elem (orders d))
    (option_map (map json_saved) (recommendations d))
    (option_map (map json_entry) (analytics d)).

(** The properties of an object after the round trip, as [json_value]
    computes them. *)
Fixpoint json_props (ps : list (string * jsval)) : list (string * jsval) :=
  match ps with
  | [] => []
  | (k, JUndef) :: r => json_props r
  | (k, x) :: r => (k, json_value x) :: json_props r
  end.

(** [sort((a, b) => key(b) - key(a))] with the stable [Array.prototype.sort]:
    greatest key first, equal keys in their order (see [sort_scores]). *)
Fixpoint insert_desc {A : Type} (key : A -> Z) (x : A) (l : list A) : list A :=
  match l with
  | [] => [x]
  | y :: r => if key y - key x <=? 0 then x :: y :: r else y :: insert_desc key x r
  end.

Fixpoint sort_desc {A : Type} (key : A -> Z) (l : list A) : list A :=
  match l with
  | [] => []
  | x :: r => insert_desc key x (sort_desc key r)
  end.

Module db.

Definition readDb (st : store) : db_data :=
  match file st with
  | Some data => data
  | None => mkData [] [] None None
  end.

(** The returned [true]/[false] is ignored by every caller; the next
    [readDb] parses the JSON text written. *)
Definition writeDb (st : store) (data : db_data) : store :=
  if writable st then mkStore (Some (json_data data)) true else st.

(** [data.analytics.find(...)] and, when found, [existing.count += 1] on
    that very element; [None] when nothing matches. *)
Fixpoint bump (ft : string) (fv : jsval) (now : Z) (l : list analytics_entry)
  : option (list analytics_entry) :=
  match l with
  | [] => None
  | a :: r =>
      if String.eqb (filterType a) ft && strict_eq_stored (filterValue a) fv
      then Some (mkEntry (filterType a) (filterValue a) (count a + 1) now :: r)
      else option_map (cons a) (bump ft fv now r)
  end.

Definition trackAnalytics (st : store) (ft : string) (fv : jsval) (now : Z) : store :=
  let data := readDb st in
  let an := match analytics data with Some l => l | None => [] end in
  let an' := match bump ft fv now an with
             | Some l => l
             | None => (an ++ [mkEntry ft fv 1 now])%list
             end in
  writeDb st (mkData (users data) (orders data) (recommendations data) (Some an')).

(** [recommendationData] is [{userId, preferences, recommendations}]. *)
Definition saveRecommendation (st : store) (user : Z) (preferences : jsval)
  (items : list saved_item) (now : Z) : store :=
  let data := readDb st in
  let rs := match recommendations data with Some l => l | None => [] end in
  writeDb st (mkData (users data) (orders data)
                (Some (rs ++ [mkSaved user preferences items now now])%list)
                (analytics data)).

Definition findRecommendationsByUserId (st : store) (user : Z) : list saved_recommendation :=
  match recommendations (readDb st) with
  | None => []
  | Some l =>
      (* sort((a, b) => new Date(b.createdAt) - new Date(a.createdAt)) *)
      sort_desc createdAt (filter (fun r => userId r =? user) l)
  end.

(** The array sorted in place is not written back. *)
Definition getAnalytics (st : store) : list analytics_entry :=
  match analytics (readDb st) with
  | None => []
  | Some l => sort_desc count l   (* sort((a, b) => b.count - a.count) *)
  end.

End db.

(** ** The other handlers of the routes file *)

(** [trackAnalytics(preferences)]: the three calls share one [try], so the
    first throw skips the calls after it. *)
Definition trackAnalytics (st : store) (preferences : jsval) (now : Z) : store :=
  match get_prop preferences "style" with
  | None => st
  | Some style =>
      let st1 := db.trackAnalytics st "style" style now in
      match get_prop preferences "passengers" with
      | None => st1
      | Some passengers =>
          match to_string_call passengers with
          | None => st1
          | Some p =>
              let st2 := db.trackAnalytics st1 "passengers" (JStr p) now in
              match get_prop preferences "priority" with
              | None => st2
              | Some priority =>
                  db.trackAnalytics st2 "priority"
                    (if truthy priority then priority else JStr "Balanced") now
              end
          end
      end
  end.

(** The record saved for one recommendation. *)
Definition to_saved_item (r : candidate) : saved_item :=
  mkItem (id r) (name r) (score r) (reasons r) (json_number (basePrice r)).

(** [POST /recommend] with the database: the response and the new file.
    Neither [trackAnalytics] nor [db.saveRecommendation] can throw here:
    [readDb] and [writeDb] catch their own errors. *)
Definition recommend_handler (catalog : list car) (body : jsval)
  (session_user : option Z) (now : Z) (st : store) : response * store :=
  match get_prop body "preferences" with
  | None => (Status500 "Failed to generate recommendations", st)
  | Some preferences =>
      if negb (truthy preferences) then (Status400 "Preferences required", st) else
      match calculateAdvancedRecommendations catalog preferences with
      | None => (Status500 "Failed to generate recommendations", st)
      | Some recs =>
          let st1 := trackAnalytics st preferences now in
          match session_user with
          | Some u =>
              (Status200 recs,
               db.saveRecommendation st1 u preferences (map to_saved_item recs) now)
          | None => (Status200 recs, st1)
          end
      end
  end.

Inductive history_response : Type :=
| History401 (message : string)
| History200 (history : list saved_recommendation).

(** [GET /recommend/history] *)
Definition history_route (st : store) (session_user : option Z) : history_response :=
  match session_user with
  | None => History401 "Not authenticated"
  | Some u => History200 (firstn 10 (db.findRecommendationsByUserId st u))
  end.

(** [GET /recommend/analytics] *)
Definition analytics_route (st : store) : list analytics_entry :=
  firstn 20 (db.getAnalytics st).

(** ** Observations of the database file *)

Definition stored_analytics (st : store) : list analytics_entry :=
  match analytics (db.readDb st) with Some l => l | None => [] end.

Definition sum_counts (l : list analytics_entry) : Z :=
  fold_right (fun a acc => count a + acc) 0 l.

(** The sum of all analytics counters. *)
Definition total_count (st : store) : Z := sum_counts (stored_analytics st).

(** The counter of a filter, summed over the entries
    [db.trackAnalytics] would match. *)
Definition count_of (st : store) (ft : string) (fv : jsval) : Z :=
  sum_counts (filter (fun a => String.eqb (filterType a) ft
                               && strict_eq_stored (filterValue a) fv)
                     (stored_analytics st)).

Definition same_filter (a b : analytics_entry) : bool :=
  String.eqb (filterType a) (filterType b)
  && strict_eq_stored (filterValue a) (filterValue b).

(** No two entries count the same filter. *)
Fixpoint filters_unique (l : list analytics_entry) : Prop :=
  match l with
  | [] => True
  | a :: r => Forall (fun b => same_filter a b = false) r /\ filters_unique r
  end.

(** Users, orders and saved recommendations are the same in both files,
    as JSON text. *)
Definition same_frame (st st' : store) : Prop :=
  map json_elem (users (db.readDb st')) = map json_elem (users (db.readDb st)) /\
  map json_elem (orders (db.readDb st')) = map json_elem (orders (db.readDb st)) /\
  option_map (map json_saved) (recommendations (db.readDb st'))
  = option_map (map json_saved) (recommendations (db.readDb st)).

(** A text with every line feed turned into a carriage return and a line
    feed. *)
Fixpoint to_crlf (s : string) : string :=
  match s with
  | EmptyString => EmptyString
  | String c r =>
      if Ascii.eqb c newline then String carriage_return (String newline (to_crlf r))
      else String c (to_crlf r)
  end.

Definition spec_headers : string :=
  "Model,Variant,Base Price (USD),Range (mi),Top Speed (mph),0-60 mph (sec),Energy Consumption (Wh/mi),Seating Capacity,Body Type,Towing Capacity (lbs),Full Self Driving Available,Drive Type,Warranty Years/Warranty Miles".

Definition sample_csv : string :=
  spec_headers ++ String newline
  ("Model 3, Standard ,38990,272,125,5.8,250,5,Sedan,NA,No,RWD,4/50000" ++ String newline
   (" " ++ String newline "Model Y,Long Range,47990,327")).

Definition empty_store : store := mkStore (Some (mkData [] [] None None)) true.

Example parseInt_ex1 : parseInt "  38990abc" = Fin 38990 0. Proof. reflexivity. Qed.
Example parseInt_ex2 : parseInt "0x1A" = Fin 26 0. Proof. reflexivity. Qed.
Example parseInt_ex3 : parseInt "abc" = NaN. Proof. reflexivity. Qed.
Example parseFloat_ex1 : num_cmp (parseFloat "5.8") (of_decimal false 58 (-1)) = Some Eq.
Proof. vm_compute. reflexivity. Qed.
Example number_ex1 : string_to_number " 7 " = Fin 7 0. Proof. reflexivity. Qed.
Example number_ex2 : string_to_number "" = Fin 0 0. Proof. reflexivity. Qed.
Example fmul_ex : num_lt (fmul (of_Z 50000) lit_1_15) (of_Z 57500) = true.
Proof. vm_compute. reflexivity. Qed.
Example fmul_ex2 : num_cmp (fmul (of_Z 40000) lit_1_15) (of_Z 46000) = Some Eq.
Proof. vm_compute. reflexivity. Qed.

Example scenario_test :
  option_map (map (fun o => (score o, reasons o)))
    (calculateAdvancedRecommendations [model3_standard] (balanced_prefs 40000 30 5))
  = Some [(70, [[Lit "Fits budget: $"; LocaleStr (of_Z 38990)];
                [Lit "Range ("; NumStr (of_Z 272); Lit "mi) covers daily drive"]])].
Proof. vm_compute. reflexivity. Qed.

(** ** Properties of the ranking *)

Section Ranking.

Let higher (a b : candidate) : Prop := score b <= score a.

Lemma insert_sorted_perm (x : candidate) (l : list candidate) :
  Permutation (x :: l) (insert_sorted x l).
Proof.
  induction l as [|y r IH]; simpl; [reflexivity|].
  destruct (by_score x y <=? 0); [reflexivity|].
  rewrite perm_swap. constructor. exact IH.
Qed.

Lemma sort_scores_perm (l : list candidate) : Permutation l (sort_scores l).
Proof.
  induction l as [|x r IH]; simpl; [reflexivity|].
  rewrite <- insert_sorted_perm. constructor. exact IH.
Qed.

Lemma insert_sorted_HdRel (y x : candidate) (l : list candidate) :
  higher y x -> HdRel higher y l -> HdRel higher y (insert_sorted x l).
Proof.
  intros Hyx Hd. destruct l as [|z r]; simpl.
  - constructor. exact Hyx.
  - destruct (by_score x z <=? 0); constructor; [exact Hyx|].
    inversion Hd; assumption.
Qed.

Lemma insert_sorted_Sorted (x : candidate) (l : list candidate) :
  Sorted higher l -> Sorted higher (insert_sorted x l).
Proof.
  induction l as [|y r IH]; intros Hs; simpl.
  - repeat constructor.
  - unfold by_score. destruct (Z.leb_spec (score y - score x) 0) as [Hle|Hgt].
    + constructor; [exact Hs|]. constructor. unfold higher. lia.
    + inversion Hs as [|? ? Hr Hd]; subst. constructor.
      * apply IH. exact Hr.
      * apply insert_sorted_HdRel; [unfold higher; lia | exact Hd].
Qed.

Lemma sort_scores_Sorted (l : list candidate) : Sorted higher (sort_scores l).
Proof.
  induction l as [|x r IH]; simpl; [constructor|].
  apply insert_sorted_Sorted. exact IH.
Qed.

(** Insertion keeps [x] after every candidate of its own score: it only
    passes candidates of a strictly higher score. *)
Lemma filter_insert_sorted (s : Z) (x : candidate) (l : list candidate) :
  filter (fun o => score o =? s) (insert_sorted x l)
  = ((if score x =? s then [x] else []) ++ filter (fun o => score o =? s) l)%list.
Proof.
  induction l as [|y r IH]; simpl.
  - destruct (score x =? s); reflexivity.
  - unfold by_score. destruct (Z.leb_spec (score y - score x) 0) as [Hle|Hgt].
    + simpl. destruct (score x =? s); reflexivity.
    + simpl. rewrite IH.
      destruct (Z.eqb_spec (score x) s) as [Hx|Hx];
      destruct (Z.eqb_spec (score y) s) as [Hy|Hy]; simpl; try reflexivity; lia.
Qed.

Lemma filter_sort_scores (s : Z) (l : list candidate) :
  filter (fun o => score o =? s) (sort_scores l) = filter (fun o => score o =? s) l.
Proof.
  induction l as [|x r IH]; simpl; [reflexivity|].
  rewrite filter_insert_sorted, IH. destruct (score x =? s); reflexivity.
Qed.

End Ranking.

(** ** Properties of the scorer *)

Lemma map_scores_Forall2 (catalog : list car) (preferences : jsval)
  (outs : list candidate) :
  map_scores catalog preferences = Some outs ->
  Forall2 (fun c o => score_car c preferences = Some o) catalog outs.
Proof.
  revert outs. induction catalog as [|c r IH]; intros outs H; simpl in H.
  - injection H as <-. constructor.
  - unfold bind in H.
    destruct (score_car c preferences) as [o|] eqn:Ho; [|discriminate].
    destruct (map_scores r preferences) as [os|] eqn:Hos; [|discriminate].
    injection H as <-. constructor; [exact Ho | apply IH; reflexivity].
Qed.

Lemma get_prop_some v k k' w : get_prop v k = Some w -> exists w', get_prop v k' = Some w'.
Proof. destruct v; simpl; intros H; try discriminate; eexists; reflexivity. Qed.

(** Runs the [let*] chain of [rules] on the reads and conversions given as
    hypotheses [x = Some _]. *)
Ltac run_binds :=
  repeat match goal with
  | H : ?x = Some _ |- context [bind ?x _] => rewrite H; cbn [bind]
  | |- context [match ?e with pair _ _ => _ end] => destruct e
  end.

(** When [priceRange.max], [dailyDistance] and [passengers] are read and
    converted to numbers without a throw, no rule throws. *)
Lemma rules_some (c : car) (preferences priceRange maxBudget dailyNeeded passengers : jsval) :
  get_prop preferences "priceRange" = Some priceRange ->
  get_prop priceRange "max" = Some maxBudget ->
  get_prop preferences "dailyDistance" = Some dailyNeeded ->
  get_prop preferences "passengers" = Some passengers ->
  to_number maxBudget <> None -> to_number dailyNeeded <> None ->
  to_number passengers <> None ->
  exists t, rules c preferences = Some t.
Proof.
  intros Hp Hm Hd Hs Cm Cd Cs.
  destruct (to_number maxBudget) as [mb|] eqn:Em; [|congruence].
  destruct (to_number dailyNeeded) as [dn|] eqn:Ed; [|congruence].
  destruct (to_number passengers) as [np|] eqn:Es; [|congruence].
  destruct (get_prop_some _ _ "priority" _ Hp) as [pr Hpr].
  destruct (get_prop_some _ _ "style" _ Hp) as [st Hst].
  destruct (get_prop_some _ _ "towing" _ Hp) as [tw Htw].
  destruct (get_prop_some _ _ "fsd" _ Hp) as [fs Hfs].
  unfold rules, budget_rule, range_rule, seat_rule. run_binds.
  eexists; reflexivity.
Qed.

Lemma map_scores_total (catalog : list car)
  (preferences priceRange maxBudget dailyNeeded passengers : jsval) :
  get_prop preferences "priceRange" = Some priceRange ->
  get_prop priceRange "max" = Some maxBudget ->
  get_prop preferences "dailyDistance" = Some dailyNeeded ->
  get_prop preferences "passengers" = Some passengers ->
  to_number maxBudget <> None -> to_number dailyNeeded <> None ->
  to_number passengers <> None ->
  exists outs, map_scores catalog preferences = Some outs.
Proof.
  intros Hp Hm Hd Hs Cm Cd Cs. induction catalog as [|c r IH]; simpl.
  - eexists; reflexivity.
  - destruct (rules_some c _ _ _ _ _ Hp Hm Hd Hs Cm Cd Cs) as [[[t rs] det] Ht].
    destruct IH as [os Hos]. unfold bind, score_car. rewrite Ht, Hos.
    eexists; reflexivity.
Qed.



Lemma map_scores_length (catalog : list car) (preferences : jsval)
  (outs : list candidate) :
  map_scores catalog preferences = Some outs -> List.length outs = List.length catalog.
Proof.
  intros H. symmetry. eapply Forall2_length, map_scores_Forall2, H.
Qed.

Lemma score_car_rules (c : car) (preferences : jsval) (o : candidate) :
  score_car c preferences = Some o ->
  exists t rs det, rules c preferences = Some (t, rs, det) /\ score o = Z.max 0 t.
Proof.
  unfold score_car. destruct (rules c preferences) as [[[t rs] det]|]; [|discriminate].
  intros H. injection H as <-. exists t, rs, det. split; reflexivity.
Qed.

(** The scorer reads [preferences] through seven properties only. *)
Lemma rules_ext (c : car) (p1 p2 : jsval) :
  (forall k, k <> "cityHighwayRatio" -> get_prop p1 k = get_prop p2 k) ->
  rules c p1 = rules c p2.
Proof.
  intros H. unfold rules.
  rewrite (H "priceRange"), (H "dailyDistance"), (H "priority"),
    (H "passengers"), (H "style"), (H "towing"), (H "fsd")
    by (intro E; discriminate E).
  reflexivity.
Qed.

Lemma map_scores_ext (catalog : list car) (p1 p2 : jsval) :
  (forall k, k <> "cityHighwayRatio" -> get_prop p1 k = get_prop p2 k) ->
  map_scores catalog p1 = map_scores catalog p2.
Proof.
  intros H. induction catalog as [|c r IH]; simpl; [reflexivity|].
  unfold score_car. rewrite (rules_ext c p1 p2 H), IH. reflexivity.
Qed.

(** ** Rounding bounds for the budget rule *)

Lemma lit_0_8_value : lit_0_8 = Fin 7205759403792794 (-53).
Proof. vm_compute. reflexivity. Qed.

Lemma lit_1_15_value : lit_1_15 = Fin 5179139571476070 (-52).
Proof. vm_compute. reflexivity. Qed.

Lemma round_half_even_le (n d y : Z) :
  0 < d -> 0 <= n -> n <= y * d -> round_half_even n d <= y.
Proof.
  intros Hd Hn Hle. unfold round_half_even.
  pose proof (Z.div_mod n d ltac:(lia)) as Hdm.
  pose proof (Z.mod_pos_bound n d Hd) as Hb.
  set (q := n / d) in *. set (r := n mod d) in *.
  destruct (Z.eq_dec r 0) as [Hr|Hr].
  - rewrite Hr. simpl. destruct (Z.ltb_spec 0 d); [|lia]. nia.
  - assert (q < y) by nia.
    destruct (2 * r <? d), (d <? 2 * r), (Z.even q); lia.
Qed.

(** Rounding [n * 2^e] never overshoots an integer bound below [2^53]. *)
Lemma round_int_le (n e y : Z) :
  0 < n -> e <= 0 -> 0 <= y < 2 ^ 53 -> n <= y * 2 ^ (- e) ->
  num_le (round_int n e) (Fin y 0) = true.
Proof.
  intros Hn He Hy Hle.
  assert (Hpe : 0 < 2 ^ (- e)) by (apply Z.pow_pos_nonneg; lia).
  assert (Hlog : Z.log2 n < 53 - e).
  { apply Z.log2_lt_pow2; [lia|].
    replace (53 - e) with (53 + - e) by lia. rewrite Z.pow_add_r by lia. nia. }
  unfold round_int. rewrite Z.abs_eq by lia.
  set (s := Z.max (Z.log2 n - 52) (-1074 - e)).
  assert (Hes : e + s <= 0) by (unfold s; lia).
  destruct (Z.leb_spec s 0) as [Hs|Hs].
  - destruct (Z.eqb_spec n 0); [lia|].
    destruct (Z.leb_spec 1024 (Z.log2 (Z.abs n) + e)) as [Ho|Ho].
    + rewrite Z.abs_eq in Ho by lia. lia.
    + unfold num_le, num_cmp. rewrite Z.min_l by lia.
      replace (e - e) with 0 by lia. replace (0 - e) with (- e) by lia.
      rewrite Z.mul_1_r. destruct (Z.compare_spec n (y * 2 ^ (- e))); auto; lia.
  - rewrite Z.sgn_pos by lia. rewrite Z.mul_1_l.
    assert (Hps : 0 < 2 ^ s) by (apply Z.pow_pos_nonneg; lia).
    assert (Hk : 2 ^ (- e) = 2 ^ (- (e + s)) * 2 ^ s)
      by (rewrite <- Z.pow_add_r by lia; f_equal; lia).
    assert (Hm : round_half_even n (2 ^ s) <= y * 2 ^ (- (e + s)))
      by (apply round_half_even_le; [lia | lia | rewrite Hk in Hle; nia]).
    set (m := round_half_even n (2 ^ s)) in *.
    destruct (Z.eqb_spec m 0) as [Hm0|Hm0].
    + unfold num_le, num_cmp. change (Z.min 0 0) with 0. change (0 - 0) with 0.
      change (2 ^ 0) with 1. rewrite !Z.mul_1_r.
      destruct (Z.compare_spec 0 y); auto; lia.
    + destruct (Z.leb_spec 1024 (Z.log2 (Z.abs m) + (e + s))) as [Ho|Ho].
      * exfalso.
        assert (Hmpos : 0 < m).
        { assert (0 <= m); [|lia].
          unfold m, round_half_even.
          assert (0 <= n / 2 ^ s) by (apply Z.div_pos; lia).
          destruct (2 * (n mod 2 ^ s) <? 2 ^ s), (2 ^ s <? 2 * (n mod 2 ^ s)),
            (Z.even (n / 2 ^ s)); lia. }
        assert (Hml : Z.log2 m < 53 + - (e + s)).
        { apply Z.log2_lt_pow2; [lia|]. rewrite Z.pow_add_r by lia.
          assert (0 < 2 ^ (- (e + s))) by (apply Z.pow_pos_nonneg; lia). nia. }
        rewrite Z.abs_eq in Ho by lia. lia.
      * unfold num_le, num_cmp. rewrite Z.min_l by lia.
        replace (e + s - (e + s)) with 0 by lia.
        replace (0 - (e + s)) with (- (e + s)) by lia.
        rewrite Z.mul_1_r. destruct (Z.compare_spec m (y * 2 ^ (- (e + s)))); auto; lia.
Qed.

Lemma num_le_not_lt (x : num) (y : Z) :
  num_le x (Fin y 0) = true -> num_lt (Fin y 0) x = false.
Proof.
  destruct x as [|b|m e]; unfold num_le, num_lt, num_cmp; [discriminate| |].
  - destruct b; [reflexivity | discriminate].
  - rewrite Z.min_comm. rewrite Z.compare_antisym.
    destruct (Z.compare _ _); simpl; congruence.
Qed.

Lemma num_le_pred_not_ge (x : num) (p : Z) :
  num_le x (Fin (p - 1) 0) = true -> num_le (Fin p 0) x = false.
Proof.
  destruct x as [|b|m e]; unfold num_le, num_cmp; [discriminate| |].
  - destruct b; [reflexivity | discriminate].
  - rewrite Z.min_comm.
    assert (0 < 2 ^ (0 - Z.min 0 e)) by (apply Z.pow_pos_nonneg; lia).
    destruct (Z.compare_spec (m * 2 ^ (e - Z.min 0 e)) ((p - 1) * 2 ^ (0 - Z.min 0 e)));
      try discriminate; intros _;
      destruct (Z.compare_spec (p * 2 ^ (0 - Z.min 0 e)) (m * 2 ^ (e - Z.min 0 e)));
      auto; nia.
Qed.

(** The two boundaries of the budget rule that rounding does not move: a
    price equal to the budget earns exactly 30, and a price of
    [1.15 * max + 1] earns -30. *)
Lemma budget_rule_at_max (mx : Z) :
  0 < mx < 2 ^ 53 ->
  budget_rule (of_Z mx) (JNum (of_Z mx))
  = Some (30, [[Lit "Fits budget: $"; LocaleStr (of_Z mx)]], []).
Proof.
  intros Hmx. unfold budget_rule, to_number, bind.
  assert (Hle : num_le (of_Z mx) (of_Z mx) = true).
  { unfold num_le, num_cmp, of_Z. simpl. rewrite Z.compare_refl. reflexivity. }
  rewrite Hle, lit_0_8_value. unfold fmul, of_Z.
  rewrite num_le_not_lt; [reflexivity|].
  apply round_int_le; [lia | lia | lia |].
  change (- (0 + -53)) with 53. nia.
Qed.

Lemma budget_rule_above_tolerance (mx p : Z) :
  0 < mx -> p < 2 ^ 53 -> 100 * p = 115 * mx + 100 ->
  budget_rule (of_Z p) (JNum (of_Z mx)) = Some (-30, [], []).
Proof.
  intros Hmx Hp Heq. unfold budget_rule, to_number, bind.
  assert (Hgt : num_le (of_Z p) (of_Z mx) = false).
  { unfold num_le, num_cmp, of_Z. simpl. rewrite !Z.mul_1_r.
    destruct (Z.compare_spec p mx); auto; lia. }
  rewrite Hgt, lit_1_15_value. unfold fmul, of_Z.
  rewrite num_le_pred_not_ge; [reflexivity|].
  apply round_int_le; [lia | lia | lia |].
  change (- (0 + -52)) with 52. nia.
Qed.

(** ** The claims *)

(** Claim C1 (budget rule boundary).  With [max = 50000], [1.15 * max] is
    57500, but [50000 * 1.15] evaluates to [57499.99999999999], so a
    vehicle priced at exactly 57500 falls through to the [-30] branch of
    the budget rule instead of receiving [+15]. *)
Theorem budget_rule_tolerance_edge :
  57500 * 100 = 115 * 50000 /\
  num_lt (fmul (of_Z 50000) lit_1_15) (of_Z 57500) = true /\
  budget_rule (parseInt "57500") (JNum (of_Z 50000)) = Some (-30, [], []).
Proof. vm_compute. repeat split; reflexivity. Qed.







(** Claim C4 refuted: over budget (38990 against 20000) and short of range
    (272 against 500 miles), the 5-seat Model 3 and its 2-seat copy both
    clamp to 0, so the one short of seats does not score lower. *)
Lemma seating_dominance_counterexample :
  ~ (forall (c : car) (s : option string) (preferences : jsval) (o1 o2 : candidate),
       seat_ok c preferences = true ->
       seat_ok (with_seating c s) preferences = false ->
       score_car c preferences = Some o1 ->
       score_car (with_seating c s) preferences = Some o2 ->
       score o2 < score o1).
Proof.
  intros H.
  assert (Hlt : forall o1 o2,
            score_car model3_standard (balanced_prefs 20000 500 5) = Some o1 ->
            score_car (with_seating model3_standard (Some "2"))
              (balanced_prefs 20000 500 5) = Some o2 ->
            score o2 < score o1)
    by (intros o1 o2; apply H; vm_compute; reflexivity).
  destruct (score_car model3_standard (balanced_prefs 20000 500 5)) as [o1|] eqn:E1;
    [|vm_compute in E1; discriminate].
  destruct (score_car (with_seating model3_standard (Some "2"))
              (balanced_prefs 20000 500 5)) as [o2|] eqn:E2;
    [|vm_compute in E2; discriminate].
  specialize (Hlt o1 o2 eq_refl eq_refl).
  vm_compute in E1, E2. injection E1 as <-. injection E2 as <-.
  vm_compute in Hlt. discriminate.
Qed.

(** Claim C4, as amended: of two records that differ only in their seating
    cell, one meeting [passengers] and one not, the running total of the
    second is exactly 65 lower (+15 against -50).  After the clamp
    [Math.max(0, score)] its score is never higher, and it is strictly
    lower whenever the first one's score is positive; when the first one's
    running total is not positive both score 0. *)
Theorem seating_penalty_gap (c : car) (s : option string) (preferences : jsval)
  (o1 o2 : candidate) :
  seat_ok c preferences = true ->
  seat_ok (with_seating c s) preferences = false ->
  score_car c preferences = Some o1 ->
  score_car (with_seating c s) preferences = Some o2 ->
  exists t1 rs1 det1 t2 rs2 det2,
    rules c preferences = Some (t1, rs1, det1) /\
    rules (with_seating c s) preferences = Some (t2, rs2, det2) /\
    t2 = t1 - 65 /\ score o1 = Z.max 0 t1 /\ score o2 = Z.max 0 t2 /\
    score o2 <= score o1 /\ (0 < score o1 -> score o2 < score o1).
Proof.
  intros Hok1 Hok2 H1 H2.
  destruct (score_car_rules _ _ _ H1) as [t1 [rs1 [det1 [R1 S1]]]].
  destruct (score_car_rules _ _ _ H2) as [t2 [rs2 [det2 [R2 S2]]]].
  exists t1, rs1, det1, t2, rs2, det2.
  assert (Ht : t2 = t1 - 65).
  { clear H1 H2 S1 S2.
    unfold seat_ok in Hok1, Hok2.
    unfold rules, budget_rule, range_rule, seat_rule, bind in R1, R2.
    destruct (get_prop preferences "passengers") as [p|]; [|discriminate Hok1].
    destruct (to_number p) as [x|]; [|discriminate Hok1].
    cbn [with_seating Base_Price_USD Range_mi Zero_to_60_mph_sec
         Energy_Consumption_Wh_mi Body_Type Towing_Capacity_lbs
         Full_Self_Driving_Available] in R2, Hok2.
    repeat (cbv beta iota zeta in R1, R2;
            try rewrite Hok1 in R1; try rewrite Hok2 in R2;
            match type of R1 with
            | context [match ?e with Some _ => _ | None => _ end] =>
                destruct e; [|discriminate R1]
            | context [match ?e with pair _ _ => _ end] => destruct e
            end).
    injection R1 as <- _ _. injection R2 as <- _ _. lia. }
  repeat split; try assumption; lia.
Qed.

Lemma seating_penalty_gap_witness :
  exists o1 o2,
    score_car model3_standard (balanced_prefs 40000 30 5) = Some o1 /\
    score_car (with_seating model3_standard (Some "2")) (balanced_prefs 40000 30 5)
      = Some o2 /\
    score o2 <= score o1 /\ (0 < score o1 -> score o2 < score o1).
Proof.
  destruct (score_car model3_standard (balanced_prefs 40000 30 5)) as [o1|] eqn:E1;
    [|vm_compute in E1; discriminate].
  destruct (score_car (with_seating model3_standard (Some "2"))
              (balanced_prefs 40000 30 5)) as [o2|] eqn:E2;
    [|vm_compute in E2; discriminate].
  exists o1, o2. split; [reflexivity|]. split; [reflexivity|].
  destruct (seating_penalty_gap model3_standard (Some "2") (balanced_prefs 40000 30 5)
              o1 o2) as (t1 & rs1 & det1 & t2 & rs2 & det2 & _ & _ & _ & _ & _ & Hle & Hlt);
    [vm_compute; reflexivity | vm_compute; reflexivity | exact E1 | exact E2 |].
  split; [exact Hle | exact Hlt].
Defined.

(** Claim C5: the result is the list of scored candidates, in catalog order,
    sorted by score descending (a permutation, sorted), cut to its first
    three; among candidates of equal score the catalog order is kept. *)
Theorem ranking_contract (catalog : list car) (preferences : jsval)
  (res : list candidate) :
  calculateAdvancedRecommendations catalog preferences = Some res ->
  exists scores ranked,
    map_scores catalog preferences = Some scores /\
    Forall2 (fun c o => score_car c preferences = Some o) catalog scores /\
    res = firstn 3 ranked /\
    Permutation scores ranked /\
    Sorted (fun a b => score b <= score a) ranked /\
    (forall s, filter (fun o => score o =? s) ranked
               = filter (fun o => score o =? s) scores) /\
    (List.length res <= 3)%nat.
Proof.
  unfold calculateAdvancedRecommendations, bind.
  destruct (map_scores catalog preferences) as [scores|] eqn:Hs; [|discriminate].
  intros H. injection H as <-.
  exists scores, (sort_scores scores).
  split; [reflexivity|]. split; [apply map_scores_Forall2, Hs|].
  split; [reflexivity|]. split; [apply sort_scores_perm|].
  split; [apply sort_scores_Sorted|]. split; [intros s; apply filter_sort_scores|].
  destruct (sort_scores scores) as [|a [|b [|d l]]]; simpl; lia.
Qed.

Lemma ranking_contract_witness :
  exists res scores ranked,
    calculateAdvancedRecommendations [model3_standard; with_seating model3_standard (Some "2")]
      (balanced_prefs 40000 30 5) = Some res /\
    map_scores [model3_standard; with_seating model3_standard (Some "2")]
      (balanced_prefs 40000 30 5) = Some scores /\
    res = firstn 3 ranked /\ Permutation scores ranked.
Proof.
  destruct (calculateAdvancedRecommendations
              [model3_standard; with_seating model3_standard (Some "2")]
              (balanced_prefs 40000 30 5)) as [res|] eqn:E;
    [|vm_compute in E; discriminate].
  destruct (ranking_contract _ _ res E)
    as (scores & ranked & Hs & _ & Hr & Hp & _).
  exists res, scores, ranked. auto.
Defined.

(** Claim C6: the worked example.  For the single Model 3 Standard record
    (38990 USD, 272 mi, 5.8 s, 5 seats, Sedan, no towing, no FSD), whatever
    its top speed, energy, drive and warranty cells, and the preferences
    {priceRange {30000, 40000}, dailyDistance 30, passengers 5, style "Any",
    priority "Balanced"}, the one recommendation scores 70 with the budget
    reason first and the range reason second. *)
Theorem worked_example (top energy drive warranty : option string) :
  option_map (map (fun o => (score o, reasons o)))
    (calculateAdvancedRecommendations
       [{| Model := Some "Model 3"; Variant := Some "Standard";
           Base_Price_USD := Some "38990"; Range_mi := Some "272";
           Top_Speed_mph := top; Zero_to_60_mph_sec := Some "5.8";
           Energy_Consumption_Wh_mi := energy; Seating_Capacity := Some "5";
           Body_Type := Some "Sedan"; Towing_Capacity_lbs := Some "NA";
           Full_Self_Driving_Available := Some "No"; Drive_Type := drive;
           Warranty_Years_Miles := warranty |}]
       (balanced_prefs 40000 30 5))
  = Some [(70, [[Lit "Fits budget: $"; LocaleStr (of_Z 38990)];
                [Lit "Range ("; NumStr (of_Z 272); Lit "mi) covers daily drive"]])].
Proof. vm_compute. reflexivity. Qed.

(** Claim C7: the score of an output candidate is [Math.max(0, total)] of
    the running total of the seven rules, hence never negative. *)
Theorem score_clamped (c : car) (preferences : jsval) (o : candidate) :
  score_car c preferences = Some o ->
  exists total rs det,
    rules c preferences = Some (total, rs, det) /\
    score o = Z.max 0 total /\ 0 <= score o.
Proof.
  intros H. destruct (score_car_rules c preferences o H) as (t & rs & det & Hr & Hs).
  exists t, rs, det. split; [exact Hr|]. split; [exact Hs|]. rewrite Hs. lia.
Qed.

Lemma score_clamped_witness :
  exists o total rs det,
    score_car (with_seating model3_standard (Some "2")) (balanced_prefs 20000 500 5)
      = Some o /\
    rules (with_seating model3_standard (Some "2")) (balanced_prefs 20000 500 5)
      = Some (total, rs, det) /\
    score o = Z.max 0 total /\ 0 <= score o.
Proof.
  destruct (score_car (with_seating model3_standard (Some "2"))
              (balanced_prefs 20000 500 5)) as [o|] eqn:E;
    [|vm_compute in E; discriminate].
  destruct (score_clamped _ _ o E) as (t & rs & det & H).
  exists o, t, rs, det. split; [reflexivity | exact H].
Defined.

(** Claim C8: two preference values that agree on every property other
    than [cityHighwayRatio] give the same result, candidates, scores,
    reasons and order alike. *)
Theorem cityHighwayRatio_inert (catalog : list car) (p1 p2 : jsval) :
  (forall k, k <> "cityHighwayRatio" -> get_prop p1 k = get_prop p2 k) ->
  calculateAdvancedRecommendations catalog p1
  = calculateAdvancedRecommendations catalog p2.
Proof.
  intros H. unfold calculateAdvancedRecommendations.
  rewrite (map_scores_ext catalog p1 p2 H). reflexivity.
Qed.

Lemma cityHighwayRatio_inert_witness :
  calculateAdvancedRecommendations [model3_standard] (prefs_with_ratio 20)
  = calculateAdvancedRecommendations [model3_standard] (prefs_with_ratio 80).
Proof.
  apply cityHighwayRatio_inert.
  intros k Hk. unfold prefs_with_ratio, get_prop, assoc.
  destruct (String.eqb k "priceRange"); [reflexivity|].
  destruct (String.eqb k "dailyDistance"); [reflexivity|].
  destruct (String.eqb k "passengers"); [reflexivity|].
  destruct (String.eqb k "style"); [reflexivity|].
  destruct (String.eqb k "priority"); [reflexivity|].
  destruct (String.eqb_spec k "cityHighwayRatio"); [contradiction | reflexivity].
Defined.

(** Claim C9: for a preference set whose [priceRange.max],
    [dailyDistance] and [passengers] are read and converted to numbers
    without a throw (numbers, as a preference set holds, or any value but
    an object with an own [toString] property), every catalog record yields
    exactly one scored candidate, none is dropped before ranking, and the
    result has [min 3 (length catalog)] entries; an empty catalog gives an
    empty result. *)
Theorem result_length (catalog : list car)
  (preferences priceRange maxBudget dailyNeeded passengers : jsval) :
  get_prop preferences "priceRange" = Some priceRange ->
  get_prop priceRange "max" = Some maxBudget ->
  get_prop preferences "dailyDistance" = Some dailyNeeded ->
  get_prop preferences "passengers" = Some passengers ->
  to_number maxBudget <> None -> to_number dailyNeeded <> None ->
  to_number passengers <> None ->
  exists scores res,
    map_scores catalog preferences = Some scores /\
    Forall2 (fun c o => score_car c preferences = Some o) catalog scores /\
    calculateAdvancedRecommendations catalog preferences = Some res /\
    List.length res = Nat.min 3 (List.length catalog) /\
    calculateAdvancedRecommendations [] preferences = Some [].
Proof.
  intros Hp Hm Hd Hs Cm Cd Cs.
  destruct (map_scores_total catalog _ _ _ _ _ Hp Hm Hd Hs Cm Cd Cs) as [scores Hsc].
  exists scores, (firstn 3 (sort_scores scores)).
  split; [exact Hsc|]. split; [apply map_scores_Forall2, Hsc|].
  unfold calculateAdvancedRecommendations. rewrite Hsc.
  split; [reflexivity|]. split; [|reflexivity].
  rewrite length_firstn, <- (Permutation_length (sort_scores_perm scores)).
  rewrite (map_scores_length _ _ _ Hsc). reflexivity.
Qed.

Lemma result_length_witness :
  exists scores res,
    map_scores [model3_standard; model3_standard; model3_standard; model3_standard]
      (balanced_prefs 40000 30 5) = Some scores /\
    calculateAdvancedRecommendations
      [model3_standard; model3_standard; model3_standard; model3_standard]
      (balanced_prefs 40000 30 5) = Some res /\
    List.length res = 3%nat.
Proof.
  destruct (result_length [model3_standard; model3_standard; model3_standard; model3_standard]
              (balanced_prefs 40000 30 5)
              (JObj [("min", JNum (of_Z 30000)); ("max", JNum (of_Z 40000))])
              (JNum (of_Z 40000)) (JNum (of_Z 30)) (JNum (of_Z 5)))
    as (scores & res & Hs & _ & Hr & Hl & _);
    [reflexivity | reflexivity | reflexivity | reflexivity
    | simpl; discriminate | simpl; discriminate | simpl; discriminate |].
  exists scores, res. split; [exact Hs|]. split; [exact Hr|]. exact Hl.
Defined.

(** Claim C10: a record whose [Seating Capacity] cell is absent or empty
    counts 5 seats, so for an integer [passengers] count it gets +15 when
    [passengers <= 5] and -50 when [passengers > 5]. *)
Theorem seating_default (c : car) (p : Z) :
  Seating_Capacity c = None \/ Seating_Capacity c = Some "" ->
  max_seats c = of_Z 5 /\
  option_map fst (seat_rule (max_seats c) (JNum (of_Z p)))
  = Some (if p <=? 5 then 15 else -50).
Proof.
  intros Hs.
  assert (Hm : max_seats c = of_Z 5)
    by (unfold max_seats, seats_string; destruct Hs as [Hs|Hs]; rewrite Hs; reflexivity).
  split; [exact Hm|]. rewrite Hm.
  unfold seat_rule, bind, num_le, num_cmp, to_number, of_Z. simpl.
  rewrite !Z.mul_1_r.
  destruct (Z.leb_spec p 5); destruct (Z.compare_spec p 5); simpl; try reflexivity; lia.
Qed.

Lemma seating_default_witness :
  max_seats (with_seating model3_standard None) = of_Z 5 /\
  option_map fst (seat_rule (max_seats (with_seating model3_standard None)) (JNum (of_Z 7)))
  = Some (-50).
Proof.
  apply (seating_default (with_seating model3_standard None) 7). left. reflexivity.
Defined.

Example tostr_tests :
  [num_to_string (of_Z 5); num_to_string (of_decimal false 1 (-1));
   num_to_string (fmul (of_Z 50000) lit_1_15); num_to_string (of_decimal false 1 21);
   num_to_string (of_decimal false 15 (-8)); num_to_string (of_Z 123456789);
   num_to_string (of_Z 100); num_to_string (of_decimal false 1 (-6));
   num_to_string (of_decimal true 25 (-1)); num_to_string (of_decimal false 123 20);
   num_to_string (of_decimal false 1 (-7)); num_to_string (Fin 1 1023)] =
  ["5"; "0.1"; "57499.99999999999"; "1e+21"; "1.5e-7"; "123456789"; "100"; "0.000001";
   "-2.5"; "1.23e+22"; "1e-7"; "8.98846567431158e+307"].
Proof. vm_compute. reflexivity. Qed.

Example loader_test :
  load_catalog (Some sample_csv) =
  [model3_standard;
   {| Model := Some "Model Y"; Variant := Some "Long Range";
      Base_Price_USD := Some "47990"; Range_mi := Some "327";
      Top_Speed_mph := None; Zero_to_60_mph_sec := None;
      Energy_Consumption_Wh_mi := None; Seating_Capacity := None;
      Body_Type := None; Towing_Capacity_lbs := None;
      Full_Self_Driving_Available := None; Drive_Type := None;
      Warranty_Years_Miles := None |}].
Proof. vm_compute. reflexivity. Qed.

Example analytics_test :
  let st := trackAnalytics (trackAnalytics empty_store (balanced_prefs 40000 30 5) 1)
              (balanced_prefs 60000 30 5) 2 in
  map (fun a => (filterType a, count a)) (analytics_route st) =
  [("style", 2); ("passengers", 2); ("priority", 2)].
Proof. vm_compute. reflexivity. Qed.

(** ** The catalog loader *)

Lemma split_on_nonempty sep l : split_on sep l <> [].
Proof.
  induction l as [|c r IH]; simpl; [discriminate|].
  destruct (Ascii.eqb c sep); [discriminate|].
  destruct (split_on sep r); discriminate.
Qed.

Lemma split_on_app_sep sep x y :
  split_on sep (x ++ sep :: y)%list = (split_on sep x ++ split_on sep y)%list.
Proof.
  induction x as [|c r IH]; simpl.
  - rewrite Ascii.eqb_refl. reflexivity.
  - rewrite IH. destruct (Ascii.eqb c sep); [reflexivity|].
    pose proof (split_on_nonempty sep r) as Hne.
    destruct (split_on sep r); [contradiction|reflexivity].
Qed.

Lemma skip_ws_all l : forallb is_ws l = true -> skip_ws l = [].
Proof.
  induction l as [|c r IH]; simpl; [reflexivity|].
  intros H. apply andb_prop in H as [H1 H2]. rewrite H1. auto.
Qed.

Lemma is_blank_ws_cons c p : is_ws c = true -> is_blank (c :: p) = is_blank p.
Proof. intros H. unfold is_blank, trim_list. simpl. rewrite H. reflexivity. Qed.

Lemma split_on_all_ws sep w :
  forallb is_ws w = true -> Forall (fun l => is_blank l = true) (split_on sep w).
Proof.
  induction w as [|c r IH]; simpl; intros H.
  - constructor; [reflexivity|constructor].
  - apply andb_prop in H as [Hc Hr]. specialize (IH Hr).
    destruct (Ascii.eqb c sep).
    + constructor; [reflexivity|exact IH].
    + destruct (split_on sep r) as [|p ps].
      * constructor; [|constructor]. rewrite is_blank_ws_cons by exact Hc. reflexivity.
      * inversion IH as [|x y Hp Hps]; subst.
        constructor; [|exact Hps]. rewrite is_blank_ws_cons by exact Hc. exact Hp.
Qed.

Lemma list_ascii_of_string_append s t :
  list_ascii_of_string (s ++ t) = (list_ascii_of_string s ++ list_ascii_of_string t)%list.
Proof. induction s as [|c s IH]; simpl; [reflexivity|now rewrite IH]. Qed.

Lemma split_lines_crlf s :
  exists ps p,
    split_on newline (list_ascii_of_string s) = (ps ++ [p])%list /\
    split_on newline (list_ascii_of_string (to_crlf s)) =
      (map (fun q => q ++ [carriage_return]) ps ++ [p])%list.
Proof.
  induction s as [|c r IH].
  - exists [], []. split; reflexivity.
  - destruct IH as (ps & p & H1 & H2).
    cbn [to_crlf list_ascii_of_string].
    destruct (Ascii.eqb c newline) eqn:Hc; cbn [list_ascii_of_string split_on].
    + rewrite Hc. exists ([] :: ps), p. rewrite H1. split; [reflexivity|].
      cbn [split_on]. rewrite H2. reflexivity.
    + rewrite Hc, H1, H2. destruct ps as [|q qs].
      * exists [], (c :: p). split; reflexivity.
      * exists ((c :: q) :: qs), p. split; reflexivity.
Qed.

Lemma split_comma_cr l :
  exists ps p,
    split_on ","%char l = (ps ++ [p])%list /\
    split_on ","%char (l ++ [carriage_return])%list = (ps ++ [p ++ [carriage_return]])%list.
Proof.
  induction l as [|c r IH].
  - exists [], []. split; reflexivity.
  - destruct IH as (ps & p & H1 & H2). cbn [app split_on].
    rewrite H1, H2. destruct (Ascii.eqb c ","%char).
    + exists ([] :: ps), p. split; reflexivity.
    + destruct ps as [|q qs].
      * exists [], (c :: p). split; reflexivity.
      * exists ((c :: q) :: qs), p. split; reflexivity.
Qed.

Lemma skip_ws_app x y :
  skip_ws (x ++ y) = if forallb is_ws x then skip_ws y else (skip_ws x ++ y)%list.
Proof.
  induction x as [|c r IH]; simpl; [reflexivity|].
  destruct (is_ws c); simpl; [exact IH|reflexivity].
Qed.

Lemma trim_list_cr l : trim_list (l ++ [carriage_return]) = trim_list l.
Proof.
  unfold trim_list. rewrite skip_ws_app.
  destruct (forallb is_ws l) eqn:H.
  - rewrite (skip_ws_all l H). reflexivity.
  - rewrite rev_app_distr. reflexivity.
Qed.

Lemma is_blank_cr l : is_blank (l ++ [carriage_return]) = is_blank l.
Proof. unfold is_blank. rewrite trim_list_cr. reflexivity. Qed.

Lemma assign_cells_trim_ext hs v1 v2 car0 :
  map js_trim v1 = map js_trim v2 ->
  assign_cells hs v1 car0 = assign_cells hs v2 car0.
Proof.
  revert v1 v2 car0. induction hs as [|h hs IH]; intros v1 v2 car0 H; simpl; [reflexivity|].
  destruct v1 as [|a v1], v2 as [|b v2]; simpl in H; try discriminate; simpl.
  - reflexivity.
  - injection H as Hab Hv. rewrite Hab. apply IH. exact Hv.
Qed.

Lemma map_js_trim_split_cr l :
  map js_trim (split_on ","%char (l ++ [carriage_return])) = map js_trim (split_on ","%char l).
Proof.
  destruct (split_comma_cr l) as (ps & p & H1 & H2). rewrite H1, H2, !map_app.
  simpl. unfold js_trim at 2. rewrite trim_list_cr. reflexivity.
Qed.

Lemma parse_line_cr hs l : parse_line hs (l ++ [carriage_return]) = parse_line hs l.
Proof. unfold parse_line. apply assign_cells_trim_ext, map_js_trim_split_cr. Qed.

Lemma assign_cells_app hs1 hs2 vs car0 :
  assign_cells (hs1 ++ hs2) vs car0 =
  assign_cells hs2 (skipn (List.length hs1) vs) (assign_cells hs1 vs car0).
Proof.
  revert vs car0. induction hs1 as [|h hs1 IH]; intros vs car0; simpl; [reflexivity|].
  rewrite IH. destruct vs; simpl; [rewrite skipn_nil|]; reflexivity.
Qed.

Lemma cell_assign_notin k hs vs car0 :
  ~ In k hs -> cell k (assign_cells hs vs car0) = cell k car0.
Proof.
  revert vs car0. induction hs as [|h hs IH]; intros vs car0 H; simpl; [reflexivity|].
  rewrite IH by (intro; apply H; right; assumption).
  destruct (String.eqb h "__proto__"); [reflexivity|]. simpl.
  destruct (String.eqb k h) eqn:E; [|reflexivity].
  apply String.eqb_eq in E. subst. exfalso. apply H. left. reflexivity.
Qed.

Lemma hd_error_skipn {A : Type} n (l : list A) : hd_error (skipn n l) = nth_error l n.
Proof. revert l. induction n; intros [|a l]; simpl; auto. Qed.

Lemma skip_ws_suffix l : exists p, l = (p ++ skip_ws l)%list.
Proof.
  induction l as [|c r IH]; simpl; [exists []; reflexivity|].
  destruct (is_ws c).
  - destruct IH as [p Hp]. exists (c :: p). simpl. rewrite <- Hp. reflexivity.
  - exists []. reflexivity.
Qed.

Lemma skip_ws_head l : match skip_ws l with c :: _ => is_ws c = false | [] => True end.
Proof.
  induction l as [|c r IH]; simpl; [exact I|].
  destruct (is_ws c) eqn:E; [exact IH|exact E].
Qed.

Lemma skip_ws_fix l : match l with c :: _ => is_ws c = false | [] => True end -> skip_ws l = l.
Proof. destruct l as [|c r]; simpl; [reflexivity|]. intros H. rewrite H. reflexivity. Qed.

Lemma skip_ws_idem l : skip_ws (skip_ws l) = skip_ws l.
Proof. apply skip_ws_fix, skip_ws_head. Qed.

Lemma trim_list_idem l : trim_list (trim_list l) = trim_list l.
Proof.
  unfold trim_list. set (t := skip_ws l). set (u := skip_ws (rev t)).
  assert (Hu : skip_ws (rev u) = rev u).
  { apply skip_ws_fix.
    destruct (skip_ws_suffix (rev t)) as [p Hp]. fold u in Hp.
    assert (Ht : t = (rev u ++ rev p)%list).
    { rewrite <- rev_app_distr, <- Hp, rev_involutive. reflexivity. }
    pose proof (skip_ws_head l) as Hh. fold t in Hh.
    destruct (rev u) as [|c r]; [exact I|]. rewrite Ht in Hh. exact Hh. }
  rewrite Hu, rev_involutive. unfold u. rewrite skip_ws_idem. reflexivity.
Qed.

Lemma js_trim_idem l : js_trim (list_ascii_of_string (js_trim l)) = js_trim l.
Proof. unfold js_trim. rewrite list_ascii_of_string_of_list_ascii, trim_list_idem. reflexivity. Qed.

Lemma assign_cells_trimmed hs vs car0 :
  (forall k v, cell k car0 = Some v -> js_trim (list_ascii_of_string v) = v) ->
  forall k v, cell k (assign_cells hs vs car0) = Some v -> js_trim (list_ascii_of_string v) = v.
Proof.
  revert vs car0. induction hs as [|h hs IH]; intros vs car0 H0; simpl; [exact H0|].
  apply IH. intros k v. destruct (String.eqb h "__proto__"); [apply H0|].
  simpl. destruct (String.eqb k h).
  - destruct (hd_error vs) as [x|]; simpl; intros E; [|discriminate].
    injection E as <-. apply js_trim_idem.
  - apply H0.
Qed.

(** Extra: white-space-only lines after the text, a final line feed
    included, add no record to the catalog. *)
Theorem loader_ignores_blank_tail (csvData w : string) :
  forallb is_ws (list_ascii_of_string w) = true ->
  load_catalog (Some (csvData ++ String newline w)) = load_catalog (Some csvData).
Proof.
  intros Hw. unfold load_catalog, load_rows.
  rewrite list_ascii_of_string_append. cbn [list_ascii_of_string].
  rewrite split_on_app_sep.
  pose proof (split_on_nonempty newline (list_ascii_of_string csvData)) as Hne.
  pose proof (split_on_all_ws newline _ Hw) as Hb.
  destruct (split_on newline (list_ascii_of_string csvData)) as [|l0 ls]; [contradiction|].
  cbn [app hd tl]. rewrite filter_app.
  assert (filter (fun l => negb (is_blank l)) (split_on newline (list_ascii_of_string w)) = [])
    as ->.
  { induction Hb as [|x xs Hx _ IH]; simpl; [reflexivity|]. rewrite Hx. exact IH. }
  rewrite app_nil_r. reflexivity.
Qed.

Lemma loader_ignores_blank_tail_witness :
  forallb is_ws (list_ascii_of_string " ") = true /\
  load_catalog (Some (sample_csv ++ String newline " ")) = load_catalog (Some sample_csv).
Proof. split; [reflexivity|]. apply loader_ignores_blank_tail. reflexivity. Defined.

(** Extra: a catalog file saved with Windows line ends (CR LF) loads as the
    same catalog as with line feeds only. *)
Theorem loader_crlf (csvData : string) :
  load_catalog (Some (to_crlf csvData)) = load_catalog (Some csvData).
Proof.
  unfold load_catalog, load_rows.
  destruct (split_lines_crlf csvData) as (ps & p & H1 & H2). rewrite H1, H2.
  destruct ps as [|q qs]; cbn [map app hd tl]; [reflexivity|].
  rewrite map_js_trim_split_cr. f_equal. clear H1 H2.
  induction qs as [|q' qs IH]; cbn [map app filter]; [reflexivity|].
  rewrite is_blank_cr. destruct (is_blank q'); cbn [negb]; [exact IH|].
  cbn [map]. rewrite parse_line_cr, IH. reflexivity.
Qed.

(** Extra: in a loaded line, a header other than [__proto__] reads the
    trimmed cell of its last column ([None], i.e. undefined, when the line
    has fewer cells); an earlier column under the same header is
    overwritten. *)
Theorem line_cell_last_column (hs1 hs2 : list string) (k : string) (line : list ascii) :
  k <> "__proto__" -> ~ In k hs2 ->
  cell k (parse_line (hs1 ++ k :: hs2) line) =
  option_map js_trim (nth_error (split_on ","%char line) (List.length hs1)).
Proof.
  intros Hk H. unfold parse_line. rewrite assign_cells_app. cbn [assign_cells].
  rewrite cell_assign_notin by exact H.
  apply String.eqb_neq in Hk. rewrite Hk. cbn [cell].
  rewrite String.eqb_refl, hd_error_skipn. reflexivity.
Qed.

Lemma line_cell_last_column_witness :
  "Seating Capacity" <> "__proto__" /\ ~ In "Seating Capacity" ["Body Type"] /\
  cell "Seating Capacity"
    (parse_line ["Model"; "Seating Capacity"; "Seating Capacity"; "Body Type"]
                (list_ascii_of_string "Model X,7, 5/6/7 ,SUV")) = Some "5/6/7".
Proof.
  split; [discriminate|]. split; [simpl; intros [H|H]; [discriminate|exact H]|].
  rewrite (line_cell_last_column ["Model"; "Seating Capacity"] ["Body Type"]).
  - reflexivity.
  - discriminate.
  - simpl. intros [H|H]; [discriminate|exact H].
Defined.

(** Extra: no value of a loaded record has leading or trailing white
    space. *)
Theorem loader_cells_trimmed (csvData : string) (r : row_object) (k v : string) :
  In r (load_rows csvData) -> cell k r = Some v ->
  js_trim (list_ascii_of_string v) = v.
Proof.
  unfold load_rows. intros Hr. apply in_map_iff in Hr as (line & <- & _).
  unfold parse_line. revert k v. apply assign_cells_trimmed.
  intros k v H. discriminate H.
Qed.

Lemma loader_cells_trimmed_witness :
  In (parse_line (map js_trim (split_on ","%char (list_ascii_of_string spec_headers)))
        (list_ascii_of_string "Model 3, Standard ,38990,272,125,5.8,250,5,Sedan,NA,No,RWD,4/50000"))
     (load_rows sample_csv) /\
  cell "Variant" (parse_line (map js_trim (split_on ","%char (list_ascii_of_string spec_headers)))
        (list_ascii_of_string "Model 3, Standard ,38990,272,125,5.8,250,5,Sedan,NA,No,RWD,4/50000"))
    = Some "Standard" /\
  js_trim (list_ascii_of_string "Standard") = "Standard".
Proof.
  assert (Hin : In (parse_line (map js_trim (split_on ","%char (list_ascii_of_string spec_headers)))
        (list_ascii_of_string "Model 3, Standard ,38990,272,125,5.8,250,5,Sedan,NA,No,RWD,4/50000"))
     (load_rows sample_csv)) by (vm_compute; left; reflexivity).
  assert (Hc : cell "Variant" (parse_line (map js_trim (split_on ","%char (list_ascii_of_string spec_headers)))
        (list_ascii_of_string "Model 3, Standard ,38990,272,125,5.8,250,5,Sedan,NA,No,RWD,4/50000"))
    = Some "Standard") by (vm_compute; reflexivity).
  split; [exact Hin|split; [exact Hc|]].
  exact (loader_cells_trimmed sample_csv _ "Variant" "Standard" Hin Hc).
Defined.

(** Extra: when the catalog file cannot be read, every request with
    preferences is answered 200 with no recommendation. *)
Theorem missing_catalog_empty_answer (body preferences : jsval) (session_user : option Z) :
  get_prop body "preferences" = Some preferences -> truthy preferences = true ->
  recommend_route (load_catalog None) body session_user true = Status200 [].
Proof.
  intros H1 H2. unfold recommend_route. rewrite H1, H2. simpl.
  destruct session_user; reflexivity.
Qed.

Lemma missing_catalog_empty_answer_witness :
  get_prop (JObj [("preferences", JStr "x")]) "preferences" = Some (JStr "x") /\
  truthy (JStr "x") = true /\
  recommend_route (load_catalog None) (JObj [("preferences", JStr "x")]) (Some 7) true
    = Status200 [].
Proof.
  split; [reflexivity|split; [reflexivity|]].
  apply (missing_catalog_empty_answer _ (JStr "x")); reflexivity.
Defined.

(** ** Stable descending sorts *)

Section Desc.

Context {A : Type} (key : A -> Z).

Let ge_key (a b : A) : Prop := key b <= key a.

Lemma insert_desc_perm x l : Permutation (insert_desc key x l) (x :: l).
Proof.
  induction l as [|y r IH]; simpl; [reflexivity|].
  destruct (key y - key x <=? 0); [reflexivity|].
  rewrite IH. apply perm_swap.
Qed.

Lemma sort_desc_perm l : Permutation (sort_desc key l) l.
Proof.
  induction l as [|x r IH]; simpl; [reflexivity|].
  rewrite insert_desc_perm, IH. reflexivity.
Qed.

Lemma insert_desc_HdRel x y l :
  HdRel ge_key y l -> ge_key y x -> HdRel ge_key y (insert_desc key x l).
Proof.
  intros H1 H2. destruct l as [|z r]; simpl.
  - constructor. exact H2.
  - destruct (key z - key x <=? 0); constructor; [exact H2|inversion H1; assumption].
Qed.

Lemma insert_desc_sorted x l : Sorted ge_key l -> Sorted ge_key (insert_desc key x l).
Proof.
  induction l as [|y r IH]; simpl; intros H.
  - repeat constructor.
  - inversion H as [|? ? Hr Hh]; subst.
    destruct (key y - key x <=? 0) eqn:E.
    + constructor; [exact H|]. constructor. unfold ge_key. lia.
    + constructor; [exact (IH Hr)|]. apply insert_desc_HdRel; [exact Hh|].
      unfold ge_key. lia.
Qed.

Lemma sort_desc_sorted l : Sorted ge_key (sort_desc key l).
Proof.
  induction l as [|x r IH]; simpl; [constructor|]. apply insert_desc_sorted, IH.
Qed.


End Desc.

Lemma sorted_firstn {A : Type} (R : A -> A -> Prop) n l :
  Sorted R l -> Sorted R (firstn n l).
Proof.
  revert n. induction l as [|a r IH]; intros [|n] H; simpl; [constructor|constructor|constructor|].
  inversion H as [|? ? Hr Hh]; subst. constructor; [exact (IH n Hr)|].
  destruct r as [|b r'], n as [|n]; simpl; constructor.
  inversion Hh; assumption.
Qed.

Lemma strongly_sorted_app {A : Type} (R : A -> A -> Prop) l1 l2 :
  StronglySorted R (l1 ++ l2) -> forall a b, In a l1 -> In b l2 -> R a b.
Proof.
  induction l1 as [|x r IH]; simpl; intros H a b Ha Hb; [contradiction|].
  inversion H as [|? ? Hs Hf]; subst. destruct Ha as [<-|Ha].
  - rewrite Forall_forall in Hf. apply Hf, in_or_app. right. exact Hb.
  - exact (IH Hs a b Ha Hb).
Qed.

(** ** The JSON round trip *)

Lemma jsval_ind' (P : jsval -> Prop) (HU : P JUndef) (HN : P JNull)
  (HB : forall b, P (JBool b)) (HNum : forall x, P (JNum x)) (HS : forall s, P (JStr s))
  (HO : forall ps, Forall (fun kv => P (snd kv)) ps -> P (JObj ps)) :
  forall v, P v.
Proof.
  exact (fix F (v : jsval) : P v :=
    match v with
    | JUndef => HU | JNull => HN | JBool b => HB b | JNum x => HNum x | JStr s => HS s
    | JObj ps =>
        HO ps ((fix go (ps : list (string * jsval)) : Forall (fun kv => P (snd kv)) ps :=
                  match ps with
                  | [] => Forall_nil _
                  | (k, x) :: r => @Forall_cons _ (fun kv => P (snd kv)) (k, x) r (F x) (go r)
                  end) ps)
    end).
Qed.

Lemma jsval_eq_undef v : v = JUndef \/ v <> JUndef.
Proof. destruct v; [left; reflexivity|right; discriminate..]. Qed.

Lemma json_value_obj ps : json_value (JObj ps) = JObj (json_props ps).
Proof. reflexivity. Qed.

Lemma json_value_undef v : json_value v = JUndef -> v = JUndef.
Proof. destruct v as [| | |[| |]| |]; simpl; congruence. Qed.

Lemma json_props_cons k x r :
  x <> JUndef -> json_props ((k, x) :: r) = (k, json_value x) :: json_props r.
Proof. destruct x; [congruence| | | | |]; reflexivity. Qed.

Lemma json_value_idem v : json_value (json_value v) = json_value v.
Proof.
  induction v as [| | |x| |ps Hps] using jsval_ind'; try reflexivity.
  - destruct x; reflexivity.
  - rewrite !json_value_obj. f_equal.
    induction ps as [|[k x] r IHr]; [reflexivity|].
    inversion Hps as [|? ? Hx Hr]; subst. cbn [snd] in Hx.
    destruct (jsval_eq_undef x) as [->|Hne]; [cbn [json_props]; exact (IHr Hr)|].
    rewrite (json_props_cons _ _ _ Hne).
    assert (Hne' : json_value x <> JUndef) by (intros E; apply Hne, json_value_undef, E).
    rewrite (json_props_cons _ _ _ Hne'), Hx, (IHr Hr). reflexivity.
Qed.

Lemma json_elem_idem v : json_elem (json_elem v) = json_elem v.
Proof.
  destruct (jsval_eq_undef v) as [->|Hne]; [reflexivity|].
  assert (E : json_elem v = json_value v) by (destruct v; [congruence|reflexivity..]).
  rewrite E. assert (Hne' : json_value v <> JUndef) by (intros F; apply Hne, json_value_undef, F).
  assert (E2 : json_elem (json_value v) = json_value (json_value v))
    by (destruct (json_value v); [congruence|reflexivity..]).
  rewrite E2, json_value_idem. reflexivity.
Qed.

Lemma json_item_idem i : json_item (json_item i) = json_item i.
Proof. unfold json_item. cbn. rewrite json_value_idem. reflexivity. Qed.

Lemma json_saved_idem r : json_saved (json_saved r) = json_saved r.
Proof.
  unfold json_saved. cbn. rewrite json_value_idem, map_map.
  f_equal. apply map_ext. apply json_item_idem.
Qed.

Lemma map_idem {A : Type} (f : A -> A) l :
  (forall x, f (f x) = f x) -> map f (map f l) = map f l.
Proof. intros H. rewrite map_map. apply map_ext. exact H. Qed.

(** A value read back from the file is [===] to a string exactly when the
    value written was. *)
Lemma strict_eq_json_str v s :
  strict_eq_stored (json_value v) (JStr s) = strict_eq_stored v (JStr s).
Proof. destruct v as [| | |[| |]| |]; reflexivity. Qed.

Lemma strict_eq_stored_obj a ps : strict_eq_stored a (JObj ps) = false.
Proof. destruct a; reflexivity. Qed.

(** Comparing with a value after its round trip: the same, unless the
    value is a number that is not finite. *)
Lemma strict_eq_json a fv :
  fv <> JNum NaN -> (forall b, fv <> JNum (Inf b)) ->
  strict_eq_stored a (json_value fv) = strict_eq_stored a fv.
Proof.
  intros H1 H2. destruct fv as [| | |[|b|m e]| |ps].
  1-3, 6, 7: reflexivity.
  - congruence.
  - exfalso. exact (H2 b eq_refl).
  - rewrite json_value_obj, !strict_eq_stored_obj. reflexivity.
Qed.

Lemma filter_map_comm {A B : Type} (f : A -> B) (p : B -> bool) (q : A -> bool) l :
  (forall x, p (f x) = q x) -> filter p (map f l) = map f (filter q l).
Proof.
  intros H. induction l as [|x r IH]; simpl; [reflexivity|].
  rewrite H. destruct (q x); simpl; rewrite IH; reflexivity.
Qed.


Lemma sum_counts_json l : sum_counts (map json_entry l) = sum_counts l.
Proof. induction l as [|a r IH]; simpl; [reflexivity|]. rewrite IH. reflexivity. Qed.

(** ** The database operations *)

Lemma writeDb_writable st data : writable (db.writeDb st data) = writable st.
Proof. unfold db.writeDb. destruct (writable st) eqn:E; simpl; congruence. Qed.

Lemma readDb_writeDb st data :
  writable st = true -> db.readDb (db.writeDb st data) = json_data data.
Proof. intros H. unfold db.writeDb. rewrite H. reflexivity. Qed.

Lemma track_writable st ft fv now : writable (db.trackAnalytics st ft fv now) = writable st.
Proof. apply writeDb_writable. Qed.

Lemma save_writable st u p items now :
  writable (db.saveRecommendation st u p items now) = writable st.
Proof. apply writeDb_writable. Qed.

Lemma stored_analytics_track st ft fv now :
  writable st = true ->
  stored_analytics (db.trackAnalytics st ft fv now) =
  map json_entry
    match db.bump ft fv now (stored_analytics st) with
    | Some l => l
    | None => (stored_analytics st ++ [mkEntry ft fv 1 now])%list
    end.
Proof.
  intros H. unfold db.trackAnalytics. cbv zeta.
  unfold stored_analytics at 1. rewrite readDb_writeDb by exact H. reflexivity.
Qed.

Lemma stored_analytics_unwritable st ft fv now :
  writable st = false -> db.trackAnalytics st ft fv now = st.
Proof. intros H. unfold db.trackAnalytics, db.writeDb. rewrite H. reflexivity. Qed.

Lemma sum_counts_app l1 l2 : sum_counts (l1 ++ l2) = sum_counts l1 + sum_counts l2.
Proof. induction l1 as [|a r IH]; simpl; [reflexivity|]. rewrite IH. lia. Qed.

Lemma bump_sum ft fv now l l' :
  db.bump ft fv now l = Some l' -> sum_counts l' = sum_counts l + 1.
Proof.
  revert l'. induction l as [|a r IH]; simpl; intros l' H; [discriminate|].
  destruct (String.eqb (filterType a) ft && strict_eq_stored (filterValue a) fv).
  - injection H as <-. simpl. lia.
  - destruct (db.bump ft fv now r) as [r'|] eqn:E; simpl in H; [|discriminate].
    injection H as <-. simpl. rewrite (IH r' eq_refl). lia.
Qed.

Lemma track_total st ft fv now :
  total_count (db.trackAnalytics st ft fv now) = total_count st + (if writable st then 1 else 0).
Proof.
  destruct (writable st) eqn:W.
  - unfold total_count. rewrite stored_analytics_track by exact W. rewrite sum_counts_json.
    destruct (db.bump ft fv now (stored_analytics st)) eqn:E.
    + exact (bump_sum _ _ _ _ _ E).
    + rewrite sum_counts_app. simpl. lia.
  - rewrite stored_analytics_unwritable by exact W. lia.
Qed.

Lemma bump_None ft fv now l :
  db.bump ft fv now l = None ->
  Forall (fun a => String.eqb (filterType a) ft && strict_eq_stored (filterValue a) fv = false) l.
Proof.
  induction l as [|a r IH]; simpl; intros H; [constructor|].
  destruct (String.eqb (filterType a) ft && strict_eq_stored (filterValue a) fv) eqn:E;
    [discriminate|].
  destruct (db.bump ft fv now r); simpl in H; [discriminate|].
  constructor; [exact E|exact (IH eq_refl)].
Qed.

Lemma bump_Forall_same ft fv now a l l' :
  db.bump ft fv now l = Some l' ->
  Forall (fun b => same_filter a b = false) l -> Forall (fun b => same_filter a b = false) l'.
Proof.
  revert l'. induction l as [|b r IH]; simpl; intros l' H Hf; [discriminate|].
  inversion Hf as [|? ? Hb Hr]; subst.
  destruct (String.eqb (filterType b) ft && strict_eq_stored (filterValue b) fv).
  - injection H as <-. constructor; [exact Hb|exact Hr].
  - destruct (db.bump ft fv now r) as [r'|] eqn:E; simpl in H; [|discriminate].
    injection H as <-. constructor; [exact Hb|exact (IH r' eq_refl Hr)].
Qed.

Lemma bump_unique ft fv now l l' :
  db.bump ft fv now l = Some l' -> filters_unique l -> filters_unique l'.
Proof.
  revert l'. induction l as [|a r IH]; simpl; intros l' H Hu; [discriminate|].
  destruct Hu as [Ha Hr].
  destruct (String.eqb (filterType a) ft && strict_eq_stored (filterValue a) fv).
  - injection H as <-. split; [exact Ha|exact Hr].
  - destruct (db.bump ft fv now r) as [r'|] eqn:E; simpl in H; [|discriminate].
    injection H as <-. split; [exact (bump_Forall_same _ _ _ _ _ _ E Ha)|exact (IH r' eq_refl Hr)].
Qed.

Lemma append_unique ft fv now l :
  Forall (fun a => String.eqb (filterType a) ft && strict_eq_stored (filterValue a) fv = false) l ->
  filters_unique l -> filters_unique (l ++ [mkEntry ft fv 1 now]).
Proof.
  induction l as [|a r IH]; simpl; intros Hf Hu.
  - split; constructor.
  - inversion Hf as [|? ? Ha Hr]; subst. destruct Hu as [Hau Hru].
    split; [|exact (IH Hr Hru)].
    apply Forall_app. split; [exact Hau|]. constructor; [exact Ha|constructor].
Qed.

(** The values of the entries after [bump] are those before. *)
Lemma bump_values ft fv now l l' :
  db.bump ft fv now l = Some l' -> map filterValue l' = map filterValue l.
Proof.
  revert l'. induction l as [|a r IH]; simpl; intros l' H; [discriminate|].
  destruct (String.eqb (filterType a) ft && strict_eq_stored (filterValue a) fv).
  - injection H as <-. reflexivity.
  - destruct (db.bump ft fv now r) as [r'|] eqn:E; simpl in H; [|discriminate].
    injection H as <-. simpl. rewrite (IH r' eq_refl). reflexivity.
Qed.

(** Entries whose values are as [JSON.parse] gives them are kept by the
    round trip. *)
Lemma map_json_entry_id l :
  Forall (fun a => json_value (filterValue a) = filterValue a) l -> map json_entry l = l.
Proof.
  induction 1 as [|a r Ha _ IH]; simpl; [reflexivity|]. rewrite IH.
  destruct a as [t v c u]. unfold json_entry. cbn in *. rewrite Ha. reflexivity.
Qed.

Lemma json_values_Forall l l' :
  map filterValue l' = map filterValue l ->
  Forall (fun a => json_value (filterValue a) = filterValue a) l ->
  Forall (fun a => json_value (filterValue a) = filterValue a) l'.
Proof.
  revert l. induction l' as [|a' r' IH]; intros [|a r] E H; simpl in E;
    try discriminate; [constructor|].
  injection E as E1 E2. inversion H as [|? ? Ha Hr]; subst.
  constructor; [rewrite E1; exact Ha | exact (IH r E2 Hr)].
Qed.

Lemma bump_obj ft ps now l : db.bump ft (JObj ps) now l = None.
Proof.
  induction l as [|a r IH]; simpl; [reflexivity|].
  rewrite strict_eq_stored_obj, andb_false_r, IH. reflexivity.
Qed.

Lemma strict_eq_stored_str_trans a fv s :
  strict_eq_stored a fv = true ->
  strict_eq_stored a (JStr s) = strict_eq_stored fv (JStr s).
Proof.
  destruct a, fv; simpl; intros H; try discriminate; try reflexivity.
  apply String.eqb_eq in H. subst. reflexivity.
Qed.

Lemma bump_count_of ft fv now ft' s l l' :
  db.bump ft fv now l = Some l' ->
  sum_counts (filter (fun a => String.eqb (filterType a) ft' && strict_eq_stored (filterValue a) (JStr s)) l') =
  sum_counts (filter (fun a => String.eqb (filterType a) ft' && strict_eq_stored (filterValue a) (JStr s)) l) +
  (if String.eqb ft ft' && strict_eq_stored fv (JStr s) then 1 else 0).
Proof.
  revert l'. induction l as [|a r IH]; simpl; intros l' H; [discriminate|].
  destruct (String.eqb (filterType a) ft && strict_eq_stored (filterValue a) fv) eqn:M.
  - injection H as <-. apply andb_prop in M as [M1 M2].
    apply String.eqb_eq in M1. cbn [filter filterType filterValue count].
    rewrite (strict_eq_stored_str_trans _ _ s M2), M1.
    destruct (String.eqb ft ft' && strict_eq_stored fv (JStr s)); simpl; lia.
  - destruct (db.bump ft fv now r) as [r'|] eqn:E; simpl in H; [|discriminate].
    injection H as <-. cbn [filter].
    destruct (String.eqb (filterType a) ft' && strict_eq_stored (filterValue a) (JStr s));
      simpl; rewrite (IH r' eq_refl); lia.
Qed.

Lemma track_count_of st ft fv now ft' s :
  count_of (db.trackAnalytics st ft fv now) ft' (JStr s) =
  count_of st ft' (JStr s) +
  (if writable st && String.eqb ft ft' && strict_eq_stored fv (JStr s) then 1 else 0).
Proof.
  destruct (writable st) eqn:W; cbn [andb].
  - unfold count_of. rewrite stored_analytics_track by exact W.
    rewrite (filter_map_comm json_entry _
               (fun a => String.eqb (filterType a) ft' && strict_eq_stored (filterValue a) (JStr s)))
      by (intros a; cbn [json_entry filterType filterValue]; rewrite strict_eq_json_str; reflexivity).
    rewrite sum_counts_json.
    destruct (db.bump ft fv now (stored_analytics st)) eqn:E.
    + exact (bump_count_of _ _ _ _ _ _ _ E).
    + rewrite filter_app, sum_counts_app. cbn [filter filterType filterValue].
      destruct (String.eqb ft ft' && strict_eq_stored fv (JStr s)); simpl; lia.
  - rewrite stored_analytics_unwritable by exact W. lia.
Qed.

Lemma truthy_get_prop v k : truthy v = true -> exists w, get_prop v k = Some w.
Proof. destruct v; simpl; intros H; try discriminate; eexists; reflexivity. Qed.

Lemma same_frame_refl st : same_frame st st.
Proof. repeat split. Qed.

Lemma same_frame_trans a b c : same_frame a b -> same_frame b c -> same_frame a c.
Proof. intros (H1 & H2 & H3) (G1 & G2 & G3). repeat split; congruence. Qed.

Lemma track_frame st ft fv now : same_frame st (db.trackAnalytics st ft fv now).
Proof.
  destruct (writable st) eqn:W; [|rewrite stored_analytics_unwritable by exact W; repeat split].
  unfold same_frame, db.trackAnalytics. cbv zeta. rewrite readDb_writeDb by exact W.
  cbn [json_data users orders recommendations].
  rewrite !(map_idem json_elem) by apply json_elem_idem.
  split; [reflexivity|split; [reflexivity|]].
  destruct (recommendations (db.readDb st)); cbn [option_map]; [|reflexivity].
  rewrite map_idem by apply json_saved_idem. reflexivity.
Qed.

Ltac frame_tac :=
  first [ apply same_frame_refl
        | eapply same_frame_trans; [ | apply track_frame ]; frame_tac ].

Lemma route_track_frame st p now : same_frame st (trackAnalytics st p now).
Proof.
  unfold trackAnalytics.
  repeat match goal with
         | |- context [match ?x with Some _ => _ | None => _ end] => destruct x
         end; frame_tac.
Qed.

Lemma route_track_writable st p now : writable (trackAnalytics st p now) = writable st.
Proof.
  unfold trackAnalytics.
  repeat match goal with
         | |- context [match ?x with Some _ => _ | None => _ end] => destruct x
         end; rewrite ?track_writable; reflexivity.
Qed.

Lemma track_file st ft fv now :
  writable st = true ->
  file (db.trackAnalytics st ft fv now) = Some (db.readDb (db.trackAnalytics st ft fv now)).
Proof. intros W. unfold db.trackAnalytics, db.writeDb. rewrite W. reflexivity. Qed.

Lemma save_file st u p items now :
  writable st = true ->
  file (db.saveRecommendation st u p items now) = Some (db.readDb (db.saveRecommendation st u p items now)).
Proof. intros W. unfold db.saveRecommendation, db.writeDb. rewrite W. reflexivity. Qed.

Lemma save_people st u p items now :
  map json_elem (users (db.readDb (db.saveRecommendation st u p items now)))
  = map json_elem (users (db.readDb st)) /\
  map json_elem (orders (db.readDb (db.saveRecommendation st u p items now)))
  = map json_elem (orders (db.readDb st)).
Proof.
  unfold db.saveRecommendation, db.writeDb. cbv zeta.
  destruct (writable st); [|split; reflexivity].
  cbn [db.readDb file json_data users orders].
  rewrite !(map_idem json_elem) by apply json_elem_idem. split; reflexivity.
Qed.

Lemma route_track_file st p style now :
  writable st = true -> get_prop p "style" = Some style ->
  file (trackAnalytics st p now) = Some (db.readDb (trackAnalytics st p now)).
Proof.
  intros W Hs. unfold trackAnalytics. rewrite Hs.
  repeat match goal with
         | |- context [match ?x with Some _ => _ | None => _ end] => destruct x
         end; apply track_file; rewrite ?track_writable; exact W.
Qed.




Lemma getAnalytics_sort st : db.getAnalytics st = sort_desc count (stored_analytics st).
Proof. unfold db.getAnalytics, stored_analytics. destruct (analytics (db.readDb st)); reflexivity. Qed.

Lemma in_firstn_in {A : Type} n (l : list A) x : In x (firstn n l) -> In x l.
Proof. intros H. rewrite <- (firstn_skipn n l). apply in_or_app. left. exact H. Qed.

Lemma Forall2_in_r {A B : Type} (R : A -> B -> Prop) l1 l2 y :
  Forall2 R l1 l2 -> In y l2 -> exists x, R x y.
Proof.
  intros H. induction H as [|a b l1' l2' Hab _ IH]; simpl; [contradiction|].
  intros [<-|Hy]; [exists a; exact Hab|exact (IH Hy)].
Qed.

(** ** Bounds of the rules *)

Lemma budget_rule_le price mb :
  match budget_rule price mb with Some t => fst (fst t) <= 35 | None => True end.
Proof.
  unfold budget_rule, bind. destruct (to_number mb); [|exact I].
  repeat match goal with |- context [if ?b then _ else _] => destruct b end; simpl; lia.
Qed.

Lemma range_rule_le range dn :
  match range_rule range dn with Some t => fst t <= 25 | None => True end.
Proof.
  unfold range_rule, bind. destruct (to_number dn); [|exact I].
  repeat match goal with |- context [if ?b then _ else _] => destruct b end; simpl; lia.
Qed.

Lemma perf_rule_le accel priority energy : fst (perf_rule accel priority energy) <= 20.
Proof.
  unfold perf_rule.
  repeat match goal with |- context [if ?b then _ else _] => destruct b end; simpl; lia.
Qed.

Lemma seat_rule_le m p :
  match seat_rule m p with Some t => fst t <= 15 | None => True end.
Proof.
  unfold seat_rule, bind. destruct (to_number p); [|exact I].
  repeat match goal with |- context [if ?b then _ else _] => destruct b end; simpl; lia.
Qed.

Lemma style_rule_le s b : fst (style_rule s b) <= 10.
Proof. unfold style_rule. destruct (_ && _); simpl; lia. Qed.

Lemma towing_rule_le t c : fst (towing_rule t c) <= 15.
Proof. unfold towing_rule. destruct (_ && _); simpl; lia. Qed.

Lemma fsd_rule_le f a : fst (fsd_rule f a) <= 10.
Proof. unfold fsd_rule. destruct (_ && _); simpl; lia. Qed.

Lemma rules_total_le c p :
  match rules c p with Some (t, _, _) => t <= 130 | None => True end.
Proof.
  unfold rules, bind.
  repeat (cbv beta iota;
    match goal with
    | |- context [match get_prop ?v ?k with Some _ => _ | None => _ end] =>
        destruct (get_prop v k)
    | |- context [budget_rule ?a ?b] =>
        generalize (budget_rule_le a b); destruct (budget_rule a b) as [[[? ?] ?]|]; simpl fst; intro
    | |- context [range_rule ?a ?b] =>
        generalize (range_rule_le a b); destruct (range_rule a b) as [[? ?]|]; simpl fst; intro
    | |- context [perf_rule ?a ?b ?e] =>
        generalize (perf_rule_le a b e); destruct (perf_rule a b e); simpl fst; intro
    | |- context [seat_rule ?a ?b] =>
        generalize (seat_rule_le a b); destruct (seat_rule a b) as [[? ?]|]; simpl fst; intro
    | |- context [style_rule ?a ?b] =>
        generalize (style_rule_le a b); destruct (style_rule a b); simpl fst; intro
    | |- context [towing_rule ?a ?b] =>
        generalize (towing_rule_le a b); destruct (towing_rule a b); simpl fst; intro
    | |- context [fsd_rule ?a ?b] =>
        generalize (fsd_rule_le a b); destruct (fsd_rule a b); simpl fst; intro
    end).
  all: first [exact I | lia].
Qed.

(** ** Properties of the database and of the other handlers *)

(** Extra: each [db.trackAnalytics] call adds exactly one to the sum of all
    counters, and nothing when the file cannot be written. *)
Theorem track_counts_one_event (st : store) (ft : string) (fv : jsval) (now : Z) :
  total_count (db.trackAnalytics st ft fv now) = total_count st + (if writable st then 1 else 0).
Proof. apply track_total. Qed.

(** Extra: [db.trackAnalytics] never creates a second entry for a filter
    already counted: the entries stay unique per (type, value), as long as
    the stored values are already as JSON gives them back and the new value
    is not a number that JSON turns into [null] ([NaN], [Infinity],
    [-Infinity]).  Both properties hold again in the file written. *)
Theorem track_keeps_filters_unique (st : store) (ft : string) (fv : jsval) (now : Z) :
  filters_unique (stored_analytics st) ->
  Forall (fun a => json_value (filterValue a) = filterValue a) (stored_analytics st) ->
  fv <> JNum NaN -> (forall b, fv <> JNum (Inf b)) ->
  filters_unique (stored_analytics (db.trackAnalytics st ft fv now)) /\
  Forall (fun a => json_value (filterValue a) = filterValue a)
    (stored_analytics (db.trackAnalytics st ft fv now)).
Proof.
  intros H Hj Hn Hi. destruct (writable st) eqn:W.
  - rewrite stored_analytics_track by exact W.
    destruct (db.bump ft fv now (stored_analytics st)) as [l|] eqn:E.
    + assert (Hl : Forall (fun a => json_value (filterValue a) = filterValue a) l)
        by exact (json_values_Forall _ _ (bump_values _ _ _ _ _ E) Hj).
      rewrite (map_json_entry_id l Hl). split; [exact (bump_unique _ _ _ _ _ E H)|exact Hl].
    + rewrite map_app, (map_json_entry_id _ Hj). cbn [map json_entry filterType filterValue count lastUpdated].
      split.
      * apply append_unique; [|exact H].
        apply (Forall_impl _ (fun a Ha => eq_trans (f_equal (andb _) (strict_eq_json _ _ Hn Hi)) Ha)).
        exact (bump_None _ _ _ _ E).
      * apply Forall_app. split; [exact Hj|]. constructor; [apply json_value_idem|constructor].
  - rewrite stored_analytics_unwritable by exact W. split; [exact H|exact Hj].
Qed.

Lemma track_keeps_filters_unique_witness :
  let st := db.trackAnalytics empty_store "style" (JStr "SUV") 1 in
  filters_unique (stored_analytics st) /\
  Forall (fun a => json_value (filterValue a) = filterValue a) (stored_analytics st) /\
  JStr "Sedan" <> JNum NaN /\ (forall b, JStr "Sedan" <> JNum (Inf b)) /\
  filters_unique (stored_analytics (db.trackAnalytics st "style" (JStr "Sedan") 2)) /\
  Forall (fun a => json_value (filterValue a) = filterValue a)
    (stored_analytics (db.trackAnalytics st "style" (JStr "Sedan") 2)).
Proof.
  assert (H : filters_unique (stored_analytics (db.trackAnalytics empty_store "style" (JStr "SUV") 1)))
    by (vm_compute; repeat constructor).
  assert (Hj : Forall (fun a => json_value (filterValue a) = filterValue a)
                 (stored_analytics (db.trackAnalytics empty_store "style" (JStr "SUV") 1)))
    by (vm_compute; repeat constructor).
  assert (Hn : JStr "Sedan" <> JNum NaN) by discriminate.
  assert (Hi : forall b, JStr "Sedan" <> JNum (Inf b)) by discriminate.
  cbv zeta. split; [exact H|split; [exact Hj|split; [exact Hn|split; [exact Hi|]]]].
  exact (track_keeps_filters_unique _ "style" (JStr "Sedan") 2 H Hj Hn Hi).
Defined.

(** Without the last hypotheses it fails: [Infinity] is stored as [null],
    which is not [===] to [Infinity], so a second call appends a second
    entry for the same filter. *)
Lemma track_infinity_duplicates :
  let st := db.trackAnalytics (db.trackAnalytics empty_store "style" (JNum (Inf false)) 1)
              "style" (JNum (Inf false)) 2 in
  stored_analytics st = [mkEntry "style" JNull 1 1; mkEntry "style" JNull 1 2] /\
  ~ filters_unique (stored_analytics st).
Proof.
  split; [vm_compute; reflexivity|]. vm_compute. intros [Hf _]. inversion Hf. discriminate.
Qed.

(** Extra: a filter value that is an object (e.g. a [style] sent as a JSON
    object) never matches a stored entry: each call appends a new entry with
    count 1, holding the object as JSON gives it back, to the entries read
    from the file (themselves as JSON gives them back). *)
Theorem track_object_value_appends (st : store) (ft : string)
  (ps : list (string * jsval)) (now : Z) :
  writable st = true ->
  stored_analytics (db.trackAnalytics st ft (JObj ps) now) =
  (map json_entry (stored_analytics st) ++ [mkEntry ft (json_value (JObj ps)) 1 now])%list.
Proof.
  intros W. rewrite stored_analytics_track by exact W. rewrite bump_obj, map_app. reflexivity.
Qed.

Lemma track_object_value_appends_witness :
  let st := db.trackAnalytics empty_store "style" (JObj [("a", JNum (of_Z 1))]) 1 in
  writable st = true /\
  stored_analytics (db.trackAnalytics st "style" (JObj [("a", JNum (of_Z 1))]) 2) =
  (map json_entry (stored_analytics st) ++
   [mkEntry "style" (json_value (JObj [("a", JNum (of_Z 1))])) 1 2])%list.
Proof.
  split; [reflexivity|]. apply track_object_value_appends. reflexivity.
Defined.

(** Extra: tracking one request adds three to the counters when
    [passengers.toString()] succeeds, and only one (the style) when it
    throws, e.g. for a missing or null [passengers]. *)
Theorem request_analytics_events (st : store) (preferences passengers : jsval) (now : Z) :
  get_prop preferences "passengers" = Some passengers ->
  total_count (trackAnalytics st preferences now) =
  total_count st +
  (if writable st then match to_string_call passengers with Some _ => 3 | None => 1 end else 0).
Proof.
  intros Hp. destruct (get_prop_some _ _ "style" _ Hp) as [style Hs].
  destruct (get_prop_some _ _ "priority" _ Hp) as [priority Hq].
  unfold trackAnalytics. rewrite Hs, Hp.
  destruct (to_string_call passengers); [rewrite Hq|];
    rewrite ?track_total, ?track_writable; destruct (writable st); lia.
Qed.

Lemma request_analytics_events_witness :
  get_prop (JObj [("style", JStr "SUV")]) "passengers" = Some JUndef /\
  total_count (trackAnalytics empty_store (JObj [("style", JStr "SUV")]) 1) =
  total_count empty_store + 1.
Proof.
  split; [reflexivity|].
  rewrite (request_analytics_events empty_store _ JUndef 1); reflexivity.
Defined.

(** Extra: when [passengers] converts to a string and [priority] is falsy
    (missing, empty, null), the request is counted under priority
    'Balanced'. *)
Theorem blank_priority_counted_balanced (st : store)
  (preferences passengers priority : jsval) (p : string) (now : Z) :
  get_prop preferences "passengers" = Some passengers ->
  to_string_call passengers = Some p ->
  get_prop preferences "priority" = Some priority ->
  truthy priority = false ->
  count_of (trackAnalytics st preferences now) "priority" (JStr "Balanced") =
  count_of st "priority" (JStr "Balanced") + (if writable st then 1 else 0).
Proof.
  intros Hp Hs Hq Ht. destruct (get_prop_some _ _ "style" _ Hp) as [style Hst].
  unfold trackAnalytics. rewrite Hst, Hp, Hs, Hq, Ht.
  rewrite !track_count_of, !track_writable. destruct (writable st); simpl; lia.
Qed.

Lemma blank_priority_counted_balanced_witness :
  let prefs := JObj [("style", JStr "SUV"); ("passengers", JNum (of_Z 4)); ("priority", JStr "")] in
  get_prop prefs "passengers" = Some (JNum (of_Z 4)) /\
  to_string_call (JNum (of_Z 4)) = Some "4" /\
  get_prop prefs "priority" = Some (JStr "") /\
  truthy (JStr "") = false /\
  count_of (trackAnalytics empty_store prefs 1) "priority" (JStr "Balanced") =
  count_of empty_store "priority" (JStr "Balanced") + 1.
Proof.
  split; [reflexivity|split; [vm_compute; reflexivity|split; [reflexivity|split; [reflexivity|]]]].
  rewrite (blank_priority_counted_balanced empty_store _ (JNum (of_Z 4)) (JStr "") "4" 1);
    [reflexivity|reflexivity|vm_compute; reflexivity|reflexivity|reflexivity].
Defined.

(** Extra: a request that gets recommendations while the database file is
    unreadable (missing or corrupt) and writable rewrites the file with no
    users and no orders. *)
Theorem unreadable_db_reset_by_request (catalog : list car) (body preferences : jsval)
  (session_user : option Z) (now : Z) (st : store) (recs : list candidate) :
  file st = None -> writable st = true ->
  get_prop body "preferences" = Some preferences -> truthy preferences = true ->
  calculateAdvancedRecommendations catalog preferences = Some recs ->
  exists d, file (snd (recommend_handler catalog body session_user now st)) = Some d /\
            users d = [] /\ orders d = [].
Proof.
  intros Hf W Hp Ht Hc. unfold recommend_handler. rewrite Hp, Ht, Hc. cbn [negb].
  destruct (truthy_get_prop _ "style" Ht) as [style Hs].
  destruct (route_track_frame st preferences now) as (U & O & _).
  assert (E0 : users (db.readDb st) = [] /\ orders (db.readDb st) = [])
    by (unfold db.readDb; rewrite Hf; split; reflexivity).
  destruct E0 as [U0 O0].
  rewrite U0 in U. rewrite O0 in O. cbn [map] in U, O.
  destruct session_user as [u|]; cbn [snd].
  - destruct (save_people (trackAnalytics st preferences now) u preferences
                (map to_saved_item recs) now) as [U1 O1].
    eexists. split; [apply save_file; rewrite route_track_writable; exact W|].
    split; apply (map_eq_nil json_elem); congruence.
  - eexists. split; [exact (route_track_file _ _ _ _ W Hs)|].
    split; apply (map_eq_nil json_elem); assumption.
Qed.

Lemma unreadable_db_reset_by_request_witness :
  let body := JObj [("preferences", balanced_prefs 40000 30 5)] in
  file (mkStore None true) = None /\ writable (mkStore None true) = true /\
  get_prop body "preferences" = Some (balanced_prefs 40000 30 5) /\
  truthy (balanced_prefs 40000 30 5) = true /\
  calculateAdvancedRecommendations [] (balanced_prefs 40000 30 5) = Some [] /\
  exists d, file (snd (recommend_handler [] body (Some 7) 1 (mkStore None true))) = Some d /\
            users d = [] /\ orders d = [].
Proof.
  do 5 (split; [reflexivity|]).
  apply (unreadable_db_reset_by_request [] _ (balanced_prefs 40000 30 5) (Some 7) 1 _ []);
    reflexivity.
Defined.



(** Extra: a logged-in user's history holds at most ten saved
    recommendations, all of that user, newest first. *)
Theorem history_of_user (st : store) (u : Z) :
  match history_route st (Some u) with
  | History200 h =>
      (List.length h <= 10)%nat /\ Forall (fun r => userId r = u) h /\
      Sorted (fun a b => createdAt b <= createdAt a) h
  | History401 _ => False
  end.
Proof.
  cbn [history_route]. split; [rewrite length_firstn; lia|]. split.
  - apply Forall_forall. intros r Hr. apply in_firstn_in in Hr.
    unfold db.findRecommendationsByUserId in Hr.
    destruct (recommendations (db.readDb st)) as [l|]; [|contradiction].
    apply (Permutation_in _ (sort_desc_perm createdAt _)) in Hr.
    apply filter_In in Hr as [_ Hu]. apply Z.eqb_eq. exact Hu.
  - apply sorted_firstn. unfold db.findRecommendationsByUserId.
    destruct (recommendations (db.readDb st)); [apply sort_desc_sorted|constructor].
Qed.

(** Extra: the analytics route returns at most twenty entries, most counted
    first, and no entry it leaves out has a higher count than one it
    returns. *)
Theorem analytics_route_top (st : store) :
  exists rest,
    Permutation (analytics_route st ++ rest) (stored_analytics st) /\
    (List.length (analytics_route st) <= 20)%nat /\
    Sorted (fun a b => count b <= count a) (analytics_route st) /\
    (forall a b, In a (analytics_route st) -> In b rest -> count b <= count a).
Proof.
  unfold analytics_route. rewrite getAnalytics_sort.
  exists (skipn 20 (sort_desc count (stored_analytics st))).
  split; [rewrite firstn_skipn; apply sort_desc_perm|].
  split; [rewrite length_firstn; lia|].
  split; [apply sorted_firstn, sort_desc_sorted|].
  apply (strongly_sorted_app (fun a b => count b <= count a)).
  rewrite firstn_skipn. apply Sorted_StronglySorted; [|apply sort_desc_sorted].
  intros x y z H1 H2. cbv beta in *. lia.
Qed.



(** Extra: no recommendation scores more than 130, the sum of the seven
    rules' largest bonuses. *)
Theorem score_at_most_130 (catalog : list car) (preferences : jsval) (recs : list candidate) :
  calculateAdvancedRecommendations catalog preferences = Some recs ->
  Forall (fun o => score o <= 130) recs.
Proof.
  unfold calculateAdvancedRecommendations, bind.
  destruct (map_scores catalog preferences) as [scores|] eqn:E; [|discriminate].
  intros H.
  pose proof (f_equal (fun r => match r with Some l => l | None => [] end) H) as Hr.
  cbv beta iota in Hr. subst recs. apply Forall_forall. intros o Ho.
  apply in_firstn_in in Ho.
  apply (Permutation_in _ (Permutation_sym (sort_scores_perm scores))) in Ho.
  destruct (Forall2_in_r _ _ _ _ (map_scores_Forall2 _ _ _ E) Ho) as [c Hc].
  destruct (score_car_rules _ _ _ Hc) as (t & rs & det & Hr & Hs).
  pose proof (rules_total_le c preferences) as B. rewrite Hr in B. lia.
Qed.

Lemma score_at_most_130_witness :
  calculateAdvancedRecommendations [model3_standard] (balanced_prefs 40000 30 5)
    = Some (firstn 3 (sort_scores (match map_scores [model3_standard] (balanced_prefs 40000 30 5)
                                   with Some l => l | None => [] end))) /\
  Forall (fun o => score o <= 130)
    (firstn 3 (sort_scores (match map_scores [model3_standard] (balanced_prefs 40000 30 5)
                            with Some l => l | None => [] end))).
Proof.
  assert (H : calculateAdvancedRecommendations [model3_standard] (balanced_prefs 40000 30 5)
    = Some (firstn 3 (sort_scores (match map_scores [model3_standard] (balanced_prefs 40000 30 5)
                                   with Some l => l | None => [] end)))) by (vm_compute; reflexivity).
  split; [exact H|]. exact (score_at_most_130 _ _ _ H).
Defined.
